(** * PebbleRun watch app: the message and session core

    A shallow embedding of the C sources of the watch app
    ([common.h], [main.c], [ui.c], [hr.c], [appmsg.c]) and the proofs of
    the properties its specification states about them.

    The program is single threaded and event driven: the Pebble event
    loop calls one handler at a time and each handler runs to completion.
    A handler is modelled as a computation over the [World], which holds
    the globals of the program ([g_app_state], [s_hr_monitoring],
    [s_main_window], [s_canvas_layer]), the little of the SDK's own state
    that the handlers depend on, and the [trace] of effects performed so
    far.  What an SDK call answers is not decided by the program: the
    answers are read from an [Env], the oracle of one handler run. *)

From Stdlib Require Import ZArith.
From Stdlib.Strings Require Import Byte.
From Stdlib Require Import DecimalString.
From stdpp Require Import base tactics option list strings.

(** ** common.h *)

(** [AppMessageKey] *)
Definition KEY_PACE : Z := 0.
Definition KEY_TIME : Z := 1.
Definition KEY_HR : Z := 2.
Definition KEY_CMD : Z := 3.

(** [Command] *)
Definition CMD_START : Z := 1.
Definition CMD_STOP : Z := 2.

(** [char pace_text[16]] and [char time_text[16]]: what [sizeof] gives. *)
Definition sizeof_text : nat := 16.

(** [AppState].  [current_hr] is a [uint16_t]; a text field is the array
    of its 16 bytes. *)
Record AppState := mkAppState {
  is_active : bool;
  current_hr : Z;
  pace_text : list byte;
  time_text : list byte
}.

(** ** The SDK as the program sees it

    The SDK is not part of the sources.  Its types are given with the
    members the program names and those the statements need; what its
    calls do is either an answer read from the environment or, for the
    outbox, taken from the specification. *)

(** The levels of [APP_LOG]. *)
Inductive AppLogLevel :=
  | APP_LOG_LEVEL_ERROR
  | APP_LOG_LEVEL_WARNING
  | APP_LOG_LEVEL_INFO
  | APP_LOG_LEVEL_DEBUG.

(** [AppMessageResult]: the program tests for [APP_MSG_OK] and reports
    every other code. *)
Inductive AppMessageResult :=
  | APP_MSG_OK
  | APP_MSG_SEND_TIMEOUT
  | APP_MSG_SEND_REJECTED
  | APP_MSG_NOT_CONNECTED
  | APP_MSG_BUSY
  | APP_MSG_BUFFER_OVERFLOW
  | APP_MSG_CLOSED
  | APP_MSG_INTERNAL_ERROR.

(** [DictionaryResult]: the program tests for [DICT_OK]. *)
Inductive DictionaryResult :=
  | DICT_OK
  | DICT_NOT_ENOUGH_STORAGE
  | DICT_INVALID_ARGS
  | DICT_INTERNAL_INCONSISTENCY
  | DICT_MALLOC_FAILED.

(** [HealthEventType]: the handler acts on [HealthEventHeartRateUpdate]. *)
Inductive HealthEventType :=
  | HealthEventSignificantUpdate
  | HealthEventMovementUpdate
  | HealthEventSleepUpdate
  | HealthEventMetricAlert
  | HealthEventHeartRateUpdate.

(** Modelled from the spec: the declaration of [TupleType] is the SDK's
    and is not in the sources; a message value is a UTF-8 string, an
    unsigned 16-bit integer or an unsigned 8-bit integer. *)
Inductive TupleType :=
  | TUPLE_CSTRING
  | TUPLE_UINT16
  | TUPLE_UINT8.

(** A [Tuple]: its key, its declared type and the bytes of its [value]
    union.  The union is read through [value_cstring] and [value_uint8],
    as the handlers do with [->value->cstring] and [->value->uint8]. *)
Record Tuple := mkTuple {
  key : Z;
  type : TupleType;
  value : list byte
}.

Definition value_cstring (t : Tuple) : list byte := value t.

(** The first byte of the union; a tuple of an integer type has one. *)
Definition value_uint8 (t : Tuple) : Z :=
  match value t with
  | b :: _ => Z.of_N (Byte.to_N b)
  | [] => 0
  end.

(** The dictionary of a received message, in the order of its tuples. *)
Definition DictionaryIterator := list Tuple.

(** Modelled from the spec: [dict_find] is the SDK's.  A message maps a
    key to a typed value; the lookup gives the tuple of the key, the
    first one should a malformed message repeat it, and [None] for
    [NULL]. *)
Fixpoint dict_find (iterator : DictionaryIterator) (k : Z) : option Tuple :=
  match iterator with
  | [] => None
  | t :: rest => if (key t =? k)%Z then Some t else dict_find rest k
  end.

Definition TupleType_eqb (a b : TupleType) : bool :=
  match a, b with
  | TUPLE_CSTRING, TUPLE_CSTRING => true
  | TUPLE_UINT16, TUPLE_UINT16 => true
  | TUPLE_UINT8, TUPLE_UINT8 => true
  | _, _ => false
  end.

(** The calls the program makes into the SDK, with the arguments that
    matter to the protocol. *)
Inductive SdkCall :=
  | WindowCreate
  | WindowSetBackgroundColor
  | WindowSetWindowHandlers
  | WindowGetRootLayer
  | WindowStackPush (animated : bool)
  | WindowStackRemove (animated : bool)
  | WindowStackPopAll (animated : bool)
  | LayerGetBounds
  | LayerCreate
  | LayerSetUpdateProc
  | LayerAddChild
  | LayerDestroy
  | LayerMarkDirty
  | FontsGetSystemFont
  | WindowDestroy
  | HealthServiceEventsSubscribe
  | HealthServiceEventsUnsubscribe
  | HealthServiceSetHeartRateSamplePeriod (seconds : Z)
  | HealthServicePeekCurrentValue
  | AppMessageRegisterInboxReceived
  | AppMessageRegisterInboxDropped
  | AppMessageRegisterOutboxSent
  | AppMessageRegisterOutboxFailed
  | AppMessageOpen (inbox outbox : Z)
  | AppMessageDeregisterCallbacks
  | AppMessageOutboxBegin
  | DictWriteUint16 (k v : Z)
  | AppMessageOutboxSend.

(** The argument of a report's format string. *)
Inductive LogArg :=
  | NoArg
  | ArgInt (n : Z)
  | ArgStr (s : list byte)
  | ArgAppMsg (r : AppMessageResult)
  | ArgDict (r : DictionaryResult).

(** An effect of the program: a report ([APP_LOG]), a call into the SDK,
    or a store to one of the scalars of the session ([is_active],
    [current_hr]) or to the monitor's flag [s_hr_monitoring]. *)
Inductive Effect :=
  | ELog (level : AppLogLevel) (fmt : string) (arg : LogArg)
  | ECall (c : SdkCall)
  | EStoreActive (b : bool)
  | EStoreHr (hr : Z)
  | EStoreMonitoring (b : bool).

(** An outbound dictionary: the pairs written into it. *)
Definition OutDict := list (Z * Z).

(** The answers of the SDK during one handler run. *)
Record Env := mkEnv {
  window_create_ok : bool;       (* window_create() is not NULL *)
  layer_create_ok : bool;        (* layer_create() is not NULL *)
  push_loads : bool;             (* window_stack_push runs the load handler *)
  subscribe_ok : bool;           (* health_service_events_subscribe *)
  set_period_ok : bool;          (* health_service_set_heart_rate_sample_period *)
  peek_value : option Z;         (* health_service_peek_current_value;
                                    None is HealthValueInvalid *)
  open_result : AppMessageResult;
  begin_result : AppMessageResult;
  write_result : DictionaryResult;
  send_result : AppMessageResult
}.

(** ** The state *)

Record World := mkWorld {
  g_app_state : AppState;        (* main.c *)
  s_hr_monitoring : bool;        (* hr.c *)
  s_main_window : bool;          (* ui.c: the pointer is not NULL *)
  s_canvas_layer : bool;         (* ui.c: the pointer is not NULL *)
  health_subscribed : bool;      (* SDK: hr_event_handler is subscribed *)
  appmsg_opened : bool;          (* SDK: app_message_open succeeded *)
  outbox_dict : OutDict;         (* SDK: the dictionary being written *)
  outbox : list OutDict;         (* SDK: sends not yet completed *)
  trace : list Effect
}.

Definition set_g_app_state (f : AppState -> AppState) (w : World) : World :=
  mkWorld (f (g_app_state w)) (s_hr_monitoring w) (s_main_window w)
    (s_canvas_layer w) (health_subscribed w) (appmsg_opened w)
    (outbox_dict w) (outbox w) (trace w).

Definition set_s_hr_monitoring (b : bool) (w : World) : World :=
  mkWorld (g_app_state w) b (s_main_window w) (s_canvas_layer w)
    (health_subscribed w) (appmsg_opened w) (outbox_dict w) (outbox w)
    (trace w).

Definition set_s_main_window (b : bool) (w : World) : World :=
  mkWorld (g_app_state w) (s_hr_monitoring w) b (s_canvas_layer w)
    (health_subscribed w) (appmsg_opened w) (outbox_dict w) (outbox w)
    (trace w).

Definition set_s_canvas_layer (b : bool) (w : World) : World :=
  mkWorld (g_app_state w) (s_hr_monitoring w) (s_main_window w) b
    (health_subscribed w) (appmsg_opened w) (outbox_dict w) (outbox w)
    (trace w).

Definition set_health_subscribed (b : bool) (w : World) : World :=
  mkWorld (g_app_state w) (s_hr_monitoring w) (s_main_window w)
    (s_canvas_layer w) b (appmsg_opened w) (outbox_dict w) (outbox w)
    (trace w).

Definition set_appmsg_opened (b : bool) (w : World) : World :=
  mkWorld (g_app_state w) (s_hr_monitoring w) (s_main_window w)
    (s_canvas_layer w) (health_subscribed w) b (outbox_dict w) (outbox w)
    (trace w).

Definition set_outbox_dict (d : OutDict) (w : World) : World :=
  mkWorld (g_app_state w) (s_hr_monitoring w) (s_main_window w)
    (s_canvas_layer w) (health_subscribed w) (appmsg_opened w) d (outbox w)
    (trace w).

Definition set_outbox (o : list OutDict) (w : World) : World :=
  mkWorld (g_app_state w) (s_hr_monitoring w) (s_main_window w)
    (s_canvas_layer w) (health_subscribed w) (appmsg_opened w)
    (outbox_dict w) o (trace w).

(** [add_trace es w]: [w] after the effects [es], nothing else changed. *)
Definition add_trace (es : list Effect) (w : World) : World :=
  mkWorld (g_app_state w) (s_hr_monitoring w) (s_main_window w)
    (s_canvas_layer w) (health_subscribed w) (appmsg_opened w)
    (outbox_dict w) (outbox w) (trace w ++ es).

Definition set_is_active (b : bool) (s : AppState) : AppState :=
  mkAppState b (current_hr s) (pace_text s) (time_text s).

Definition set_current_hr (hr : Z) (s : AppState) : AppState :=
  mkAppState (is_active s) hr (pace_text s) (time_text s).

Definition set_pace_text (t : list byte) (s : AppState) : AppState :=
  mkAppState (is_active s) (current_hr s) t (time_text s).

Definition set_time_text (t : list byte) (s : AppState) : AppState :=
  mkAppState (is_active s) (current_hr s) (pace_text s) t.

(** ** Handlers as computations

    A computation takes the world and gives a result and the next world,
    or [None] when the C program would leave defined behaviour (a store
    outside an array). *)
Definition M (A : Type) : Type := World -> option (A * World).

Definition ret {A} (a : A) : M A := fun w => Some (a, w).

Definition bind {A B} (m : M A) (k : A -> M B) : M B :=
  fun w => match m w with
           | Some (a, w') => k a w'
           | None => None
           end.

Declare Scope prog_scope.
Delimit Scope prog_scope with prog.
Bind Scope prog_scope with M.

Notation "x <-- m ;; k" := (bind m (fun x => k))
  (at level 100, m at next level, k at level 200, right associativity)
  : prog_scope.
Notation "m ;; k" := (bind m (fun _ => k))
  (at level 100, k at level 200, right associativity) : prog_scope.

Local Open Scope prog_scope.

(** Reading a global, changing the world, failing. *)
Definition get {A} (f : World -> A) : M A := fun w => Some (f w, w).
Definition modify (f : World -> World) : M unit := fun w => Some (tt, f w).
Definition lift {A} (o : option A) : M A :=
  fun w => match o with Some a => Some (a, w) | None => None end.

Definition emit (e : Effect) : M unit := modify (add_trace [e]).

(** [APP_LOG(level, fmt, arg)] *)
Definition app_log (level : AppLogLevel) (fmt : string) (arg : LogArg) : M unit :=
  emit (ELog level fmt arg).

Definition call (c : SdkCall) : M unit := emit (ECall c).

(** The stores to the scalars of the session and to the monitor's flag. *)
Definition store_is_active (b : bool) : M unit :=
  modify (set_g_app_state (set_is_active b)) ;; emit (EStoreActive b).

Definition store_current_hr (hr : Z) : M unit :=
  modify (set_g_app_state (set_current_hr hr)) ;; emit (EStoreHr hr).

Definition store_s_hr_monitoring (b : bool) : M unit :=
  modify (set_s_hr_monitoring b) ;; emit (EStoreMonitoring b).

(** ** Character arrays and C strings *)

Definition is_nul (c : byte) : bool := Byte.eqb c x00.

(** [buf[i] = c], defined only inside the array. *)
Definition buf_store (buf : list byte) (i : nat) (c : byte) : option (list byte) :=
  if decide (i < length buf) then Some (<[i := c]> buf) else None.

(** [strncpy(dst + i, src, n)].  [src] is the memory at the source
    pointer; the end of the list reads as the terminator every C string
    has.  Each of the [n] rounds stores one byte: the next byte of the
    source, and NUL from the terminator on. *)
Fixpoint strncpy_at (dst src : list byte) (i n : nat) : option (list byte) :=
  match n with
  | O => Some dst
  | S n' =>
      let c := hd x00 src in
      match buf_store dst i c with
      | Some dst' => strncpy_at dst' (if is_nul c then [] else tl src) (S i) n'
      | None => None
      end
  end.

Definition strncpy (dst src : list byte) (n : nat) : option (list byte) :=
  strncpy_at dst src 0 n.

(** The string a character array or a pointer holds: the bytes before
    the first NUL. *)
Fixpoint cstring (s : list byte) : list byte :=
  match s with
  | [] => []
  | c :: rest => if is_nul c then [] else c :: cstring rest
  end.

Definition strlen (s : list byte) : nat := length (cstring s).

(** A character array of [n] bytes initialised from a literal: the rest
    of the array is zero. *)
Definition char_array (n : nat) (s : string) : list byte :=
  take n (String.list_byte_of_string s ++ replicate n x00).

(** ** main.c: the session state at process start *)

Definition initial_app_state : AppState :=
  {| is_active := false;
     current_hr := 0;
     pace_text := char_array sizeof_text "--:--/km";
     time_text := char_array sizeof_text "00:00:00" |}.

(** The globals as the loader leaves them: the statics of hr.c and ui.c
    are zero, nothing is subscribed or open, nothing was sent. *)
Definition initial_world : World :=
  {| g_app_state := initial_app_state;
     s_hr_monitoring := false;
     s_main_window := false;
     s_canvas_layer := false;
     health_subscribed := false;
     appmsg_opened := false;
     outbox_dict := [];
     outbox := [];
     trace := [] |}.

(** ** ui.c *)

Definition main_window_load (env : Env) : M unit :=
  call WindowGetRootLayer ;;
  call LayerGetBounds ;;
  call LayerCreate ;;
  modify (set_s_canvas_layer (layer_create_ok env)) ;;
  call LayerSetUpdateProc ;;
  call LayerAddChild ;;
  call FontsGetSystemFont ;;
  call FontsGetSystemFont.

(** [layer_destroy] frees the layer; [s_canvas_layer] keeps its value. *)
Definition main_window_unload : M unit :=
  call LayerDestroy.

Definition ui_init (env : Env) : M unit :=
  call WindowCreate ;;
  modify (set_s_main_window (window_create_ok env)) ;;
  call WindowSetBackgroundColor ;;
  call WindowSetWindowHandlers ;;
  app_log APP_LOG_LEVEL_INFO "UI initialized" NoArg.

Definition ui_deinit : M unit :=
  window <-- get s_main_window ;;
  if window then call WindowDestroy else ret tt.

Definition ui_update_hr (hr : Z) : M unit :=
  store_current_hr hr ;;
  layer <-- get s_canvas_layer ;;
  if layer then call LayerMarkDirty else ret tt.

(** [pace] is the pointer argument: [None] for [NULL], otherwise the
    memory it points to. *)
Definition ui_update_pace (pace : option (list byte)) : M unit :=
  match pace with
  | Some src =>
      buf <-- get (fun w => pace_text (g_app_state w)) ;;
      buf <-- lift (strncpy buf src (sizeof_text - 1)) ;;
      buf <-- lift (buf_store buf (sizeof_text - 1) x00) ;;
      modify (set_g_app_state (set_pace_text buf)) ;;
      layer <-- get s_canvas_layer ;;
      if layer then call LayerMarkDirty else ret tt
  | None => ret tt
  end.

Definition ui_update_time (time : option (list byte)) : M unit :=
  match time with
  | Some src =>
      buf <-- get (fun w => time_text (g_app_state w)) ;;
      buf <-- lift (strncpy buf src (sizeof_text - 1)) ;;
      buf <-- lift (buf_store buf (sizeof_text - 1) x00) ;;
      modify (set_g_app_state (set_time_text buf)) ;;
      layer <-- get s_canvas_layer ;;
      if layer then call LayerMarkDirty else ret tt
  | None => ret tt
  end.

(** [window_stack_push]: the SDK may run the window's load handler
    before it returns. *)
Definition window_stack_push (env : Env) (animated : bool) : M unit :=
  call (WindowStackPush animated) ;;
  if push_loads env then main_window_load env else ret tt.

Definition ui_show_window (env : Env) : M unit :=
  window <-- get s_main_window ;;
  if window then
    window_stack_push env true ;;
    store_is_active true ;;
    layer <-- get s_canvas_layer ;;
    if layer then call LayerMarkDirty else ret tt
  else ret tt.

Definition ui_hide_window : M unit :=
  window <-- get s_main_window ;;
  if window then
    call (WindowStackRemove true) ;;
    store_is_active false
  else ret tt.

(** ** The outbox of the SDK *)

(** Modelled from the spec: [app_message_outbox_begin] is the SDK's and
    is not in the sources.  The outbox has a single slot: while a send
    has not completed the call fails with [APP_MSG_BUSY] (the spec's
    ChannelBusy); otherwise the transport answers, and on success a new
    dictionary is opened. *)
Definition app_message_outbox_begin (env : Env) : M AppMessageResult :=
  call AppMessageOutboxBegin ;;
  pending <-- get outbox ;;
  match pending with
  | _ :: _ => ret APP_MSG_BUSY
  | [] =>
      match begin_result env with
      | APP_MSG_OK => modify (set_outbox_dict []) ;; ret APP_MSG_OK
      | r => ret r
      end
  end.

(** Modelled from the spec: [dict_write_uint16] is the SDK's; every write
    is fallible, and a write that succeeds adds the pair to the
    dictionary. *)
Definition dict_write_uint16 (env : Env) (k v : Z) : M DictionaryResult :=
  call (DictWriteUint16 k v) ;;
  match write_result env with
  | DICT_OK =>
      d <-- get outbox_dict ;;
      modify (set_outbox_dict (d ++ [(k, v)])) ;;
      ret DICT_OK
  | r => ret r
  end.

(** Modelled from the spec: [app_message_outbox_send] is the SDK's; it
    returns at once, and a send that is accepted stays in the outbox
    until its completion is delivered. *)
Definition app_message_outbox_send (env : Env) : M AppMessageResult :=
  call AppMessageOutboxSend ;;
  match send_result env with
  | APP_MSG_OK =>
      d <-- get outbox_dict ;;
      o <-- get outbox ;;
      modify (set_outbox (o ++ [d])) ;;
      ret APP_MSG_OK
  | r => ret r
  end.

(** Modelled from the spec: the completion of the oldest send, delivered
    by the event loop before the sent or failed callback runs. *)
Definition outbox_complete : M unit :=
  o <-- get outbox ;;
  modify (set_outbox (tl o)).

(** ** appmsg.c, sending *)

Definition OUTBOX_SIZE : Z := 64.
Definition INBOX_SIZE : Z := 128.

Definition appmsg_send_hr (env : Env) (hr_bpm : Z) : M unit :=
  result <-- app_message_outbox_begin env ;;
  match result with
  | APP_MSG_OK =>
      result <-- dict_write_uint16 env KEY_HR hr_bpm ;;
      match result with
      | DICT_OK =>
          result <-- app_message_outbox_send env ;;
          match result with
          | APP_MSG_OK => ret tt
          | _ =>
              app_log APP_LOG_LEVEL_ERROR "Failed to send HR message: %d"
                (ArgAppMsg result)
          end
      | _ =>
          app_log APP_LOG_LEVEL_ERROR "Failed to write HR to dictionary: %d"
            (ArgDict result)
      end
  | _ =>
      app_log APP_LOG_LEVEL_ERROR "Failed to begin outbox: %d"
        (ArgAppMsg result)
  end.

(** ** hr.c *)

(** [health_service_peek_current_value(HealthMetricHeartRateBPM)] *)
Definition health_service_peek_current_value (env : Env) : M (option Z) :=
  call HealthServicePeekCurrentValue ;;
  ret (peek_value env).

(** [health_service_set_heart_rate_sample_period(seconds)] *)
Definition health_service_set_heart_rate_sample_period
    (env : Env) (seconds : Z) : M bool :=
  call (HealthServiceSetHeartRateSamplePeriod seconds) ;;
  ret (set_period_ok env).

(** [(uint16_t)hr_value] *)
Definition to_uint16 (v : Z) : Z := (v mod 65536)%Z.

Definition hr_event_handler (env : Env) (event : HealthEventType) : M unit :=
  match event with
  | HealthEventHeartRateUpdate =>
      hr_value <-- health_service_peek_current_value env ;;
      match hr_value with
      | Some v =>
          let hr_bpm := to_uint16 v in
          ui_update_hr hr_bpm ;;
          appmsg_send_hr env hr_bpm ;;
          app_log APP_LOG_LEVEL_INFO "HR: %d BPM" (ArgInt hr_bpm)
      | None =>
          app_log APP_LOG_LEVEL_WARNING "Invalid HR reading" NoArg
      end
  | _ => ret tt
  end.

Definition hr_init (env : Env) : M unit :=
  call HealthServiceEventsSubscribe ;;
  if subscribe_ok env then
    modify (set_health_subscribed true) ;;
    app_log APP_LOG_LEVEL_INFO "HR monitoring initialized" NoArg
  else
    app_log APP_LOG_LEVEL_ERROR "Failed to subscribe to health events" NoArg.

Definition hr_start_monitoring (env : Env) : M unit :=
  monitoring <-- get s_hr_monitoring ;;
  if monitoring then
    app_log APP_LOG_LEVEL_WARNING "HR monitoring already active" NoArg
  else
    ok <-- health_service_set_heart_rate_sample_period env 1 ;;
    if ok then
      store_s_hr_monitoring true ;;
      app_log APP_LOG_LEVEL_INFO "HR monitoring started (1s interval)" NoArg
    else
      app_log APP_LOG_LEVEL_ERROR "Failed to set HR sample period" NoArg.

Definition hr_stop_monitoring (env : Env) : M unit :=
  monitoring <-- get s_hr_monitoring ;;
  if negb monitoring then
    app_log APP_LOG_LEVEL_WARNING "HR monitoring not active" NoArg
  else
    health_service_set_heart_rate_sample_period env 0 ;;
    store_s_hr_monitoring false ;;
    ui_update_hr 0 ;;
    app_log APP_LOG_LEVEL_INFO "HR monitoring stopped" NoArg.

Definition hr_deinit (env : Env) : M unit :=
  monitoring <-- get s_hr_monitoring ;;
  (if monitoring then hr_stop_monitoring env else ret tt) ;;
  call HealthServiceEventsUnsubscribe ;;
  modify (set_health_subscribed false) ;;
  app_log APP_LOG_LEVEL_INFO "HR monitoring deinitialized" NoArg.

(** ** appmsg.c, receiving *)

Definition appmsg_handle_command (env : Env) (cmd : Z) : M unit :=
  app_log APP_LOG_LEVEL_INFO "Received command: %d" (ArgInt cmd) ;;
  if (cmd =? CMD_START)%Z then
    app_log APP_LOG_LEVEL_INFO "Starting workout session" NoArg ;;
    ui_show_window env ;;
    hr_start_monitoring env
  else if (cmd =? CMD_STOP)%Z then
    app_log APP_LOG_LEVEL_INFO "Stopping workout session" NoArg ;;
    hr_stop_monitoring env ;;
    ui_hide_window ;;
    call (WindowStackPopAll false)
  else
    app_log APP_LOG_LEVEL_WARNING "Unknown command: %d" (ArgInt cmd).

Definition appmsg_handle_pace_update (pace : option (list byte)) : M unit :=
  match pace with
  | Some s =>
      app_log APP_LOG_LEVEL_DEBUG "Pace update: %s" (ArgStr (cstring s)) ;;
      ui_update_pace pace
  | None => ret tt
  end.

Definition appmsg_handle_time_update (time : option (list byte)) : M unit :=
  match time with
  | Some s =>
      app_log APP_LOG_LEVEL_DEBUG "Time update: %s" (ArgStr (cstring s)) ;;
      ui_update_time time
  | None => ret tt
  end.

Definition inbox_received_callback
    (env : Env) (iterator : DictionaryIterator) : M unit :=
  app_log APP_LOG_LEVEL_INFO "AppMessage received" NoArg ;;
  let pace_tuple := dict_find iterator KEY_PACE in
  (match pace_tuple with
   | Some t =>
       if TupleType_eqb (type t) TUPLE_CSTRING
       then appmsg_handle_pace_update (Some (value_cstring t))
       else ret tt
   | None => ret tt
   end) ;;
  let time_tuple := dict_find iterator KEY_TIME in
  (match time_tuple with
   | Some t =>
       if TupleType_eqb (type t) TUPLE_CSTRING
       then appmsg_handle_time_update (Some (value_cstring t))
       else ret tt
   | None => ret tt
   end) ;;
  let cmd_tuple := dict_find iterator KEY_CMD in
  match cmd_tuple with
  | Some t =>
      if TupleType_eqb (type t) TUPLE_UINT8
      then appmsg_handle_command env (value_uint8 t)
      else ret tt
  | None => ret tt
  end.

Definition inbox_dropped_callback (reason : AppMessageResult) : M unit :=
  app_log APP_LOG_LEVEL_ERROR "AppMessage inbox dropped: %d" (ArgAppMsg reason).

Definition outbox_sent_callback : M unit :=
  app_log APP_LOG_LEVEL_DEBUG "AppMessage sent successfully" NoArg.

Definition outbox_failed_callback (reason : AppMessageResult) : M unit :=
  app_log APP_LOG_LEVEL_ERROR "AppMessage send failed: %d" (ArgAppMsg reason).

Definition appmsg_init (env : Env) : M unit :=
  call AppMessageRegisterInboxReceived ;;
  call AppMessageRegisterInboxDropped ;;
  call AppMessageRegisterOutboxSent ;;
  call AppMessageRegisterOutboxFailed ;;
  call (AppMessageOpen INBOX_SIZE OUTBOX_SIZE) ;;
  match open_result env with
  | APP_MSG_OK =>
      modify (set_appmsg_opened true) ;;
      app_log APP_LOG_LEVEL_INFO "AppMessage initialized successfully" NoArg
  | result =>
      app_log APP_LOG_LEVEL_ERROR "AppMessage initialization failed: %d"
        (ArgAppMsg result)
  end.

Definition appmsg_deinit : M unit :=
  call AppMessageDeregisterCallbacks ;;
  modify (set_appmsg_opened false) ;;
  app_log APP_LOG_LEVEL_INFO "AppMessage deinitialized" NoArg.

(** ** main.c *)

Definition init (env : Env) : M unit :=
  ui_init env ;;
  hr_init env ;;
  appmsg_init env ;;
  app_log APP_LOG_LEVEL_INFO "PebbleRun initialized" NoArg.

Definition deinit (env : Env) : M unit :=
  appmsg_deinit ;;
  hr_deinit env ;;
  ui_deinit ;;
  app_log APP_LOG_LEVEL_INFO "PebbleRun deinitialized" NoArg.

(** ** The event loop

    What [app_event_loop] delivers to the program between [init] and
    [deinit], one handler at a time. *)
Inductive Event :=
  | InboxReceived (iterator : DictionaryIterator)
  | InboxDropped (reason : AppMessageResult)
  | OutboxSent
  | OutboxFailed (reason : AppMessageResult)
  | HealthEvent (event : HealthEventType)
  | WindowLoad
  | WindowUnload.

(** The SDK delivers only what was registered: messages once the channel
    is open, a completion for a send that is in the outbox, health events
    to a subscribed handler, window handlers to a window that exists. *)
Definition enabled (e : Event) (w : World) : bool :=
  match e with
  | InboxReceived _ | InboxDropped _ => appmsg_opened w
  | OutboxSent | OutboxFailed _ =>
      match outbox w with [] => false | _ :: _ => true end
  | HealthEvent _ => health_subscribed w
  | WindowLoad | WindowUnload => s_main_window w
  end.

Definition handle (env : Env) (e : Event) : M unit :=
  match e with
  | InboxReceived iterator => inbox_received_callback env iterator
  | InboxDropped reason => inbox_dropped_callback reason
  | OutboxSent => outbox_complete ;; outbox_sent_callback
  | OutboxFailed reason => outbox_complete ;; outbox_failed_callback reason
  | HealthEvent event => hr_event_handler env event
  | WindowLoad => main_window_load env
  | WindowUnload => main_window_unload
  end.

(** The worlds the program can be in when a handler starts or ends. *)
Inductive reachable : World -> Prop :=
  | reachable_init env w :
      init env initial_world = Some (tt, w) ->
      reachable w
  | reachable_step env e w w' :
      reachable w ->
      enabled e w = true ->
      handle env e w = Some (tt, w') ->
      reachable w'.

(** [run] plays a list of events, each with the answers of the SDK. *)
Fixpoint run (es : list (Env * Event)) (w : World) : option World :=
  match es with
  | [] => Some w
  | (env, e) :: rest =>
      if enabled e w then
        match handle env e w with
        | Some (_, w') => run rest w'
        | None => None
        end
      else None
  end.

(** ** The vocabulary of the statements *)

(** What [if (s_canvas_layer) layer_mark_dirty(s_canvas_layer)] does. *)
Definition mark_dirty (w : World) : list Effect :=
  if s_canvas_layer w then [ECall LayerMarkDirty] else [].

(** The [n] bytes [strncpy] stores, in the order it stores them. *)
Fixpoint strncpy_image (src : list byte) (n : nat) : list byte :=
  match n with
  | O => []
  | S n' =>
      let c := hd x00 src in
      c :: strncpy_image (if is_nul c then [] else tl src) n'
  end.

(** The 16 bytes of a text field after an update from [src]: at most 15
    characters of the string, then NUL up to the end of the array. *)
Definition stored_text (src : list byte) : list byte :=
  take (sizeof_text - 1) (cstring src)
  ++ replicate (sizeof_text - Nat.min (sizeof_text - 1) (strlen src)) x00.

Arguments stored_text _ : simpl never.

(** The world after [appmsg_handle_pace_update] and after
    [appmsg_handle_time_update] with a pointer that is not [NULL]. *)
Definition pace_updated (src : list byte) (w : World) : World :=
  add_trace
    (ELog APP_LOG_LEVEL_DEBUG "Pace update: %s" (ArgStr (cstring src))
     :: mark_dirty w)
    (set_g_app_state (set_pace_text (stored_text src)) w).

Definition time_updated (src : list byte) (w : World) : World :=
  add_trace
    (ELog APP_LOG_LEVEL_DEBUG "Time update: %s" (ArgStr (cstring src))
     :: mark_dirty w)
    (set_g_app_state (set_time_text (stored_text src)) w).

(** The text fields are the arrays [common.h] declares. *)
Definition text_ok (w : World) : Prop :=
  length (pace_text (g_app_state w)) = sizeof_text /\
  length (time_text (g_app_state w)) = sizeof_text.

(** What holds of every world the event loop can see: the arrays have
    their size, a session is active only on a window that exists, and the
    outbox holds at most one send. *)
Definition session_ok (w : World) : Prop :=
  text_ok w /\
  (is_active (g_app_state w) = true -> s_main_window w = true) /\
  length (outbox w) <= 1.

(** Relations between the world before and after a computation. *)
Definition keeps {A} (f : World -> A) : relation World :=
  fun w w' => f w' = f w.

Definition preserving (I : World -> Prop) : relation World :=
  fun w w' => I w -> I w'.

Definition hr_kept_or_cleared : relation World :=
  fun w w' =>
    current_hr (g_app_state w') = current_hr (g_app_state w) \/
    current_hr (g_app_state w') = 0%Z.

(** [respects R m]: whenever [m] returns, the worlds before and after
    are related by [R]. *)
Definition respects {A} (R : relation World) (m : M A) : Prop :=
  forall w a w', m w = Some (a, w') -> R w w'.

(** The scalars of the session together with the monitor's flag. *)
Definition scalars (w : World) : bool * Z * bool :=
  (is_active (g_app_state w), current_hr (g_app_state w), s_hr_monitoring w).

Definition texts (w : World) : list byte * list byte :=
  (pace_text (g_app_state w), time_text (g_app_state w)).

(** The value a tuple is accepted with: [Some] when the key is present
    with the declared type. *)
Definition accepted_cstring (iterator : DictionaryIterator) (k : Z)
    : option (list byte) :=
  match dict_find iterator k with
  | Some t =>
      if TupleType_eqb (type t) TUPLE_CSTRING then Some (value_cstring t)
      else None
  | None => None
  end.

Definition accepted_uint8 (iterator : DictionaryIterator) (k : Z) : option Z :=
  match dict_find iterator k with
  | Some t =>
      if TupleType_eqb (type t) TUPLE_UINT8 then Some (value_uint8 t)
      else None
  | None => None
  end.

(** The keys the dispatch looks for. *)
Definition dispatched_key (k : Z) : bool :=
  ((k =? KEY_PACE) || (k =? KEY_TIME) || (k =? KEY_CMD))%Z.

Definition is_warning (e : Effect) : bool :=
  match e with
  | ELog APP_LOG_LEVEL_WARNING _ _ => true
  | _ => false
  end.

(** A report of a failure: a warning or an error. *)
Definition is_failure_report (e : Effect) : bool :=
  match e with
  | ELog APP_LOG_LEVEL_WARNING _ _ | ELog APP_LOG_LEVEL_ERROR _ _ => true
  | _ => false
  end.

(** A delivered event that carries a valid heart-rate reading. *)
Definition valid_sample (ee : Env * Event) : bool :=
  match ee with
  | (env, HealthEvent HealthEventHeartRateUpdate) =>
      match peek_value env with Some _ => true | None => false end
  | _ => false
  end.

(** No event of the history carried a valid reading. *)
Definition no_reading (es : list (Env * Event)) : bool :=
  forallb (fun ee => negb (valid_sample ee)) es.

(** The world a received message leaves before its command, if it has
    one, is handled: the report of the reception, then the PACE and the
    TIME updates that were accepted. *)
Definition after_texts (iterator : DictionaryIterator) (w : World) : World :=
  let w1 := add_trace [ELog APP_LOG_LEVEL_INFO "AppMessage received" NoArg] w in
  let w2 := match accepted_cstring iterator KEY_PACE with
            | Some s => pace_updated s w1
            | None => w1
            end in
  match accepted_cstring iterator KEY_TIME with
  | Some s => time_updated s w2
  | None => w2
  end.

(** The number of warnings among some effects. *)
Definition warnings (es : list Effect) : nat :=
  length (List.filter is_warning es).

(** ** Sample worlds and answers, for the examples *)

(** Every SDK call succeeds; the sensor answers [reading]. *)
Definition env_ok (reading : option Z) : Env :=
  {| window_create_ok := true; layer_create_ok := true; push_loads := true;
     subscribe_ok := true; set_period_ok := true; peek_value := reading;
     open_result := APP_MSG_OK; begin_result := APP_MSG_OK;
     write_result := DICT_OK; send_result := APP_MSG_OK |}.

(** The sample period cannot be configured; all else succeeds. *)
Definition env_period_fails : Env :=
  {| window_create_ok := true; layer_create_ok := true; push_loads := true;
     subscribe_ok := true; set_period_ok := false; peek_value := None;
     open_result := APP_MSG_OK; begin_result := APP_MSG_OK;
     write_result := DICT_OK; send_result := APP_MSG_OK |}.

(** The world after [init] when every call succeeded. *)
Definition w_boot : World :=
  add_trace
    [ECall WindowCreate; ECall WindowSetBackgroundColor;
     ECall WindowSetWindowHandlers;
     ELog APP_LOG_LEVEL_INFO "UI initialized" NoArg;
     ECall HealthServiceEventsSubscribe;
     ELog APP_LOG_LEVEL_INFO "HR monitoring initialized" NoArg;
     ECall AppMessageRegisterInboxReceived;
     ECall AppMessageRegisterInboxDropped;
     ECall AppMessageRegisterOutboxSent;
     ECall AppMessageRegisterOutboxFailed;
     ECall (AppMessageOpen INBOX_SIZE OUTBOX_SIZE);
     ELog APP_LOG_LEVEL_INFO "AppMessage initialized successfully" NoArg;
     ELog APP_LOG_LEVEL_INFO "PebbleRun initialized" NoArg]
    (set_appmsg_opened true
       (set_health_subscribed true (set_s_main_window true initial_world))).

Definition cmd_message (cmd : byte) : DictionaryIterator :=
  [mkTuple KEY_CMD TUPLE_UINT8 [cmd]].

(** [w_boot] after the peer's [CMD_START]: the session is active and the
    monitor is sampling. *)
Definition w_active : World :=
  match run [(env_ok None, InboxReceived (cmd_message x01))] w_boot with
  | Some w => w
  | None => w_boot
  end.

(** [w_active] after a sample of 142 BPM: the send is in the outbox. *)
Definition w_sent : World :=
  match run [(env_ok (Some 142%Z), HealthEvent HealthEventHeartRateUpdate)]
          w_active with
  | Some w => w
  | None => w_active
  end.

(** A session in which the sensor has no valid reading and the sample
    period cannot be reset at the end: start, an invalid sample, stop. *)
Definition session_events : list (Env * Event) :=
  [(env_ok None, InboxReceived (cmd_message x01));
   (env_ok None, HealthEvent HealthEventHeartRateUpdate);
   (env_period_fails, InboxReceived (cmd_message x02))].

Definition w_stopped : World :=
  match run session_events w_boot with
  | Some w => w
  | None => w_boot
  end.

(** A message whose CMD field carries a string, with a field of an
    unknown key and an HR field, which the watch does not expect. *)
Definition odd_message : DictionaryIterator :=
  [mkTuple KEY_CMD TUPLE_CSTRING (String.list_byte_of_string "2");
   mkTuple 7 TUPLE_UINT8 [x01];
   mkTuple KEY_HR TUPLE_UINT16 [x8e; x00]].

(** A sample of 142 BPM delivered right after [init], the monitor never
    started. *)
Definition idle_sample_events : list (Env * Event) :=
  [(env_ok (Some 142%Z), HealthEvent HealthEventHeartRateUpdate)].

(** Start with the sample period refused, a sample of 142 BPM, stop. *)
Definition stale_stop_events : list (Env * Event) :=
  [(env_period_fails, InboxReceived (cmd_message x01));
   (env_ok (Some 142%Z), HealthEvent HealthEventHeartRateUpdate);
   (env_ok None, InboxReceived (cmd_message x02))].

(** A text of a thousand characters. *)
Definition long_text : list byte := replicate 1000 "a"%byte.

(** ** ui.c: drawing the session view *)

Inductive GColor :=
  | GColorRed
  | GColorWhite
  | GColorLightGray
  | GColorBlack
  | GColorGreen.

Definition COLOR_HR : GColor := GColorRed.
Definition COLOR_PACE : GColor := GColorWhite.
Definition COLOR_TIME : GColor := GColorLightGray.
Definition COLOR_BACKGROUND : GColor := GColorBlack.

(** [GRect(x, y, w, h)] *)
Record GRect := mkGRect {
  origin_x : Z;
  origin_y : Z;
  size_w : Z;
  size_h : Z
}.

(** The font a text is drawn with: the static that holds it. *)
Inductive FontVar :=
  | S_FONT_HR
  | S_FONT_DATA.

(** The calls of [canvas_update_proc] on the graphics context.  Every
    text is drawn with word wrap and centred; the rectangle is filled
    with no rounded corner. *)
Inductive DrawOp :=
  | GraphicsContextSetFillColor (c : GColor)
  | GraphicsFillRect (r : GRect)
  | GraphicsContextSetTextColor (c : GColor)
  | GraphicsDrawText (text : list byte) (font : FontVar) (box : GRect)
  | GraphicsFillCircle (x y radius : Z).

(** What ["%d"] prints for an [int]. *)
Definition format_d (z : Z) : list byte :=
  String.list_byte_of_string (NilZero.string_of_int (Z.to_int z)).

(** [snprintf(buf, size, ...)]: the string left in [buf], at most
    [size - 1] characters of the formatted text. *)
Definition snprintf (size : nat) (formatted : list byte) : list byte :=
  take (size - 1) formatted.

(** Reading a character array as a string: defined when the array holds
    a terminator, otherwise the read runs past the array. *)
Definition read_cstring (buf : list byte) : option (list byte) :=
  if existsb is_nul buf then Some (cstring buf) else None.

(** [(int16_t)z], the type of a coordinate. *)
Definition to_int16 (z : Z) : Z := ((z + 32768) mod 65536 - 32768)%Z.

(** [canvas_update_proc], with the bounds of the layer: the drawing
    calls in their order, or [None] when a text field has no terminator. *)
Definition canvas_update_proc (bounds : GRect) (st : AppState)
    : option (list DrawOp) :=
  let hr_text :=
    if (0 <? current_hr st)%Z
    then snprintf 16 (format_d (current_hr st)
                      ++ String.list_byte_of_string " BPM")
    else snprintf 16 (String.list_byte_of_string "-- BPM") in
  pace ← read_cstring (pace_text st);
  time ← read_cstring (time_text st);
  Some
    ([GraphicsContextSetFillColor COLOR_BACKGROUND;
      GraphicsFillRect bounds;
      GraphicsContextSetTextColor COLOR_HR;
      GraphicsDrawText hr_text S_FONT_HR (mkGRect 0 20 (size_w bounds) 40);
      GraphicsContextSetTextColor COLOR_PACE;
      GraphicsDrawText pace S_FONT_DATA (mkGRect 0 70 (size_w bounds) 30);
      GraphicsContextSetTextColor COLOR_TIME;
      GraphicsDrawText time S_FONT_DATA (mkGRect 0 110 (size_w bounds) 30)]
     ++ if is_active st
        then [GraphicsContextSetFillColor GColorGreen;
              GraphicsFillCircle (to_int16 (size_w bounds - 10)) 10 3]
        else []).

(** ** More vocabulary *)

Definition is_error (e : Effect) : bool :=
  match e with
  | ELog APP_LOG_LEVEL_ERROR _ _ => true
  | _ => false
  end.

(** The number of error reports among some effects. *)
Definition errors (es : list Effect) : nat :=
  length (List.filter is_error es).

(** The outbox is free and the transport accepts each step of a send. *)
Definition send_accepted (env : Env) (w : World) : bool :=
  match outbox w, begin_result env, write_result env, send_result env with
  | [], APP_MSG_OK, DICT_OK, APP_MSG_OK => true
  | _, _, _, _ => false
  end.

(** [f] holds of the [fuel] integers from [z] on. *)
Fixpoint all_from (fuel : nat) (z : Z) (f : Z -> bool) : bool :=
  match fuel with
  | O => true
  | S k => f z && all_from k (z + 1) f
  end.

(** An effect of a text update: a report or the request to redraw. *)
Definition text_effect (e : Effect) : Prop :=
  match e with
  | ELog _ _ _ | ECall LayerMarkDirty => True
  | _ => False
  end.

(** The effects of [hr_stop_monitoring] on a sampling monitor. *)
Definition stop_effects (w : World) : list Effect :=
  [ECall (HealthServiceSetHeartRateSamplePeriod 0);
   EStoreMonitoring false; EStoreHr 0] ++ mark_dirty w ++
  [ELog APP_LOG_LEVEL_INFO "HR monitoring stopped" NoArg].

(** A value of the type [uint16_t]. *)
Definition is_uint16 (v : Z) : Prop := (0 <= v < 65536)%Z.

(** A write into an outbound dictionary is a write of a heart rate. *)
Definition hr_write_only (e : Effect) : Prop :=
  match e with
  | ECall (DictWriteUint16 k v) => k = KEY_HR /\ is_uint16 v
  | _ => True
  end.

(** The session view is neither pushed nor removed. *)
Definition no_window_call (e : Effect) : Prop :=
  match e with
  | ECall (WindowStackPush _) | ECall (WindowStackRemove _)
  | ECall WindowDestroy => False
  | _ => True
  end.

(** Nothing of a send: no begin, no write, no send. *)
Definition no_send_call (e : Effect) : Prop :=
  match e with
  | ECall AppMessageOutboxBegin | ECall (DictWriteUint16 _ _)
  | ECall AppMessageOutboxSend | ECall HealthServicePeekCurrentValue => False
  | _ => True
  end.

(** A text field ends in NUL. *)
Definition terminated (buf : list byte) : Prop :=
  buf !! (sizeof_text - 1) = Some x00.

(** The message carries a command that is accepted. *)
Definition is_command (e : Event) : bool :=
  match e with
  | InboxReceived iterator =>
      match accepted_uint8 iterator KEY_CMD with
      | Some _ => true
      | None => false
      end
  | _ => false
  end.

Definition is_message (e : Event) : bool :=
  match e with
  | InboxReceived _ => true
  | _ => false
  end.

Definition is_health_event (e : Event) : bool :=
  match e with
  | HealthEvent _ => true
  | _ => false
  end.

(** The effects of the pace and of the time of a message, when they are
    accepted. *)
Definition pace_effects (iterator : DictionaryIterator) (w : World)
    : list Effect :=
  match accepted_cstring iterator KEY_PACE with
  | Some s =>
      ELog APP_LOG_LEVEL_DEBUG "Pace update: %s" (ArgStr (cstring s))
      :: mark_dirty w
  | None => []
  end.

Definition time_effects (iterator : DictionaryIterator) (w : World)
    : list Effect :=
  match accepted_cstring iterator KEY_TIME with
  | Some s =>
      ELog APP_LOG_LEVEL_DEBUG "Time update: %s" (ArgStr (cstring s))
      :: mark_dirty w
  | None => []
  end.

(** A message with a pace, a time and a command. *)
Definition full_message (cmd : byte) : DictionaryIterator :=
  [mkTuple KEY_CMD TUPLE_UINT8 [cmd];
   mkTuple KEY_TIME TUPLE_CSTRING (String.list_byte_of_string "00:12:34");
   mkTuple KEY_PACE TUPLE_CSTRING (String.list_byte_of_string "5:30/km")].

(** No window, no subscription, no channel: every call of [init] fails. *)
Definition env_fails : Env :=
  {| window_create_ok := false; layer_create_ok := false;
     push_loads := false; subscribe_ok := false; set_period_ok := false;
     peek_value := None; open_result := APP_MSG_CLOSED;
     begin_result := APP_MSG_CLOSED; write_result := DICT_NOT_ENOUGH_STORAGE;
     send_result := APP_MSG_CLOSED |}.

(** The subscription to the health service fails; all else succeeds. *)
Definition env_no_health : Env :=
  {| window_create_ok := true; layer_create_ok := true; push_loads := true;
     subscribe_ok := false; set_period_ok := true; peek_value := None;
     open_result := APP_MSG_OK; begin_result := APP_MSG_OK;
     write_result := DICT_OK; send_result := APP_MSG_OK |}.

(** [window_create] returns [NULL]; all else succeeds. *)
Definition env_no_window : Env :=
  {| window_create_ok := false; layer_create_ok := true; push_loads := true;
     subscribe_ok := true; set_period_ok := true; peek_value := None;
     open_result := APP_MSG_OK; begin_result := APP_MSG_OK;
     write_result := DICT_OK; send_result := APP_MSG_OK |}.

Definition boot (env : Env) : World :=
  match init env initial_world with
  | Some (_, w) => w
  | None => initial_world
  end.

(** * Proofs *)

(** ** Worlds and traces *)

Lemma World_ext (a b : World) :
  g_app_state a = g_app_state b ->
  s_hr_monitoring a = s_hr_monitoring b ->
  s_main_window a = s_main_window b ->
  s_canvas_layer a = s_canvas_layer b ->
  health_subscribed a = health_subscribed b ->
  appmsg_opened a = appmsg_opened b ->
  outbox_dict a = outbox_dict b ->
  outbox a = outbox b ->
  trace a = trace b ->
  a = b.
Proof. destruct a, b; cbn; intros; subst; reflexivity. Qed.

Lemma add_trace_nil w : add_trace [] w = w.
Proof. apply World_ext; cbn; auto using app_nil_r. Qed.

(** Unfolding of the primitive computations. *)
Ltac unfold_prog :=
  unfold app_log, call, store_is_active, store_current_hr,
    store_s_hr_monitoring, emit, modify, get, lift, bind, ret in *.

(** Running a handler on a world whose tests are decided. *)
Ltac run_prog :=
  cbv beta iota zeta delta
    [handle inbox_dropped_callback outbox_sent_callback
     outbox_failed_callback outbox_complete hr_event_handler
     appmsg_handle_command hr_start_monitoring hr_stop_monitoring
     appmsg_send_hr app_message_outbox_begin dict_write_uint16
     app_message_outbox_send health_service_peek_current_value
     health_service_set_heart_rate_sample_period ui_show_window
     ui_hide_window window_stack_push main_window_load main_window_unload
     ui_update_hr init ui_init hr_init appmsg_init
     app_log call store_is_active store_current_hr store_s_hr_monitoring
     emit modify get lift bind ret negb
     add_trace set_g_app_state set_s_hr_monitoring set_s_main_window
     set_s_canvas_layer set_health_subscribed set_appmsg_opened
     set_outbox_dict set_outbox set_is_active set_current_hr set_pace_text
     set_time_text mark_dirty
     g_app_state s_hr_monitoring s_main_window s_canvas_layer
     health_subscribed appmsg_opened outbox_dict outbox trace
     is_active current_hr pace_text time_text
     window_create_ok layer_create_ok push_loads subscribe_ok set_period_ok
     peek_value open_result begin_result write_result send_result].

(** Two results are the same world, up to the bracketing of the trace. *)
Ltac world_eq :=
  run_prog; do 2 f_equal; apply World_ext; try reflexivity;
  cbn [trace]; rewrite <- ?app_assoc; reflexivity.

(** A world taken apart, so that every test of a handler computes. *)
Ltac open_world w :=
  let st := fresh "st" in
  destruct w as [st ? ? ? ? ? ? ? ?]; destruct st; cbn in *; subst.

Lemma bind_Some {A B} (m : M A) (k : A -> M B) w a w1 :
  m w = Some (a, w1) -> bind m k w = k a w1.
Proof. unfold bind. by intros ->. Qed.

Lemma bind_inv {A B} (m : M A) (k : A -> M B) w b w' :
  bind m k w = Some (b, w') ->
  exists a w1, m w = Some (a, w1) /\ k a w1 = Some (b, w').
Proof.
  unfold bind. destruct (m w) as [[a w1]|]; [|discriminate]. eauto.
Qed.

(** ** [strncpy] and the text fields *)

Lemma is_nul_true c : is_nul c = true -> c = x00.
Proof. apply Byte.byte_dec_bl. Qed.

Lemma length_strncpy_image src n : length (strncpy_image src n) = n.
Proof.
  revert src; induction n as [|n IH]; intros src; cbn; [done|].
  by rewrite IH.
Qed.

(** [strncpy] stays inside an array that has room for its [n] bytes, and
    stores the image of the source there. *)
Lemma strncpy_at_image n : forall dst src i,
  i + n <= length dst ->
  strncpy_at dst src i n =
    Some (take i dst ++ strncpy_image src n ++ drop (i + n) dst).
Proof.
  induction n as [|n IH]; intros dst src i Hlen; cbn.
  - by rewrite Nat.add_0_r, take_drop.
  - unfold buf_store. rewrite decide_True by lia.
    rewrite IH by (rewrite length_insert; lia).
    f_equal.
    rewrite (take_S_r _ _ (hd x00 src)) by (apply list_lookup_insert_eq; lia).
    rewrite take_insert_ge by lia.
    rewrite drop_insert_lt by lia.
    rewrite <- (assoc_L (++)). cbn.
    by replace (S (i + n)) with (i + S n) by lia.
Qed.

(** [strncpy] asked for more bytes than the array has leaves defined
    behaviour: the model does not hide an overrun. *)
Lemma strncpy_at_overrun n : forall dst src i,
  i <= length dst -> length dst < i + n -> strncpy_at dst src i n = None.
Proof.
  induction n as [|n IH]; intros dst src i Hi Hlen; cbn; [lia|].
  unfold buf_store. case_decide; [|done].
  apply IH; rewrite length_insert; lia.
Qed.

Lemma strncpy_image_nil n : strncpy_image [] n = replicate n x00.
Proof. induction n as [|n IH]; cbn; [done|]. by rewrite IH. Qed.

Lemma strncpy_image_cstring n : forall src,
  strncpy_image src n =
    take n (cstring src) ++ replicate (n - strlen src) x00.
Proof.
  unfold strlen.
  induction n as [|n IH]; intros src; [by destruct (cstring src)|].
  destruct src as [|c rest]; cbn.
  - by rewrite strncpy_image_nil.
  - destruct (is_nul c) eqn:Hc; cbn.
    + apply is_nul_true in Hc as ->. by rewrite strncpy_image_nil.
    + by rewrite IH.
Qed.

Lemma cstring_no_nul s : Forall (fun c => is_nul c = false) (cstring s).
Proof.
  induction s as [|c rest IH]; cbn; [constructor|].
  destruct (is_nul c) eqn:Hc; [constructor|]. by constructor.
Qed.

Lemma cstring_app_nul l k :
  Forall (fun c => is_nul c = false) l ->
  cstring (l ++ x00 :: k) = l.
Proof.
  induction 1 as [|c l Hc _ IH]; cbn; [done|]. by rewrite Hc, IH.
Qed.

Lemma cstring_prefix s : exists k, s = cstring s ++ k.
Proof.
  induction s as [|c rest [k IH]]; cbn; [by exists []|].
  destruct (is_nul c); [by eexists|]. exists k. cbn. by f_equal.
Qed.

Lemma take_cstring n s : n <= strlen s -> take n (cstring s) = take n s.
Proof.
  unfold strlen. intros H. destruct (cstring_prefix s) as [k Hk].
  rewrite Hk at 2. by rewrite take_app_le.
Qed.

Lemma length_stored_text s : length (stored_text s) = sizeof_text.
Proof.
  unfold stored_text, strlen.
  rewrite length_app, length_take, length_replicate.
  unfold sizeof_text. lia.
Qed.

Lemma cstring_stored_text s :
  cstring (stored_text s) = take (sizeof_text - 1) (cstring s).
Proof.
  unfold stored_text, strlen.
  assert (exists k,
    sizeof_text - Nat.min (sizeof_text - 1) (length (cstring s)) = S k)
    as [k ->].
  { unfold sizeof_text. exists (15 - Nat.min 15 (length (cstring s))). lia. }
  cbn [replicate]. apply cstring_app_nul.
  apply Forall_take, cstring_no_nul.
Qed.

Lemma stored_text_long s :
  sizeof_text - 1 < strlen s ->
  stored_text s = take (sizeof_text - 1) s ++ [x00].
Proof.
  intros H. unfold stored_text.
  rewrite take_cstring by lia.
  replace (sizeof_text - Nat.min (sizeof_text - 1) (strlen s)) with 1
    by (unfold sizeof_text in *; lia).
  reflexivity.
Qed.

Lemma drop_last_cell (buf : list byte) n :
  length buf = S n -> exists b, drop n buf = [b].
Proof.
  intros H. destruct (drop n buf) as [|b [|b' l]] eqn:Hd;
    apply (f_equal length) in Hd; rewrite length_drop, H in Hd; cbn in Hd;
    [lia | by exists b | lia].
Qed.

Lemma strncpy_image_stored_text src :
  strncpy_image src (sizeof_text - 1) ++ [x00] = stored_text src.
Proof.
  rewrite strncpy_image_cstring. unfold stored_text.
  rewrite <- (assoc_L (++)). f_equal.
  change [x00] with (replicate 1 x00). rewrite <- replicate_add. f_equal.
  unfold sizeof_text. lia.
Qed.

(** The two statements of an update, [strncpy(buf, src, sizeof - 1)] and
    [buf[sizeof - 1] = 0], on an array of the declared size. *)
Lemma strncpy_then_terminate buf src :
  length buf = sizeof_text ->
  exists b,
    strncpy buf src (sizeof_text - 1) = Some b /\
    buf_store b (sizeof_text - 1) x00 = Some (stored_text src).
Proof.
  intros Hlen. unfold strncpy.
  assert (length buf = S (sizeof_text - 1)) as Hlen' by (rewrite Hlen; done).
  rewrite strncpy_at_image by lia.
  destruct (drop_last_cell buf _ Hlen') as [b Hb].
  eexists; split; [reflexivity|].
  change (0 + (sizeof_text - 1)) with (sizeof_text - 1). rewrite Hb.
  change (take 0 buf) with (@nil byte). cbn [app]. unfold buf_store.
  rewrite decide_True by (rewrite length_app, length_strncpy_image; cbn; lia).
  f_equal. rewrite <- strncpy_image_stored_text.
  rewrite <- (Nat.add_0_r (sizeof_text - 1)) at 1.
  rewrite <- (length_strncpy_image src (sizeof_text - 1)) at 1.
  by rewrite insert_app_r.
Qed.

Lemma ui_update_pace_eq src w :
  length (pace_text (g_app_state w)) = sizeof_text ->
  ui_update_pace (Some src) w =
    Some (tt, add_trace (mark_dirty w)
                (set_g_app_state (set_pace_text (stored_text src)) w)).
Proof.
  intros Hlen. destruct (strncpy_then_terminate _ src Hlen) as (b & Hb & Hs).
  unfold ui_update_pace, mark_dirty. unfold_prog. rewrite Hb, Hs. cbn.
  destruct (s_canvas_layer w); [reflexivity|].
  by rewrite add_trace_nil.
Qed.

Lemma ui_update_time_eq src w :
  length (time_text (g_app_state w)) = sizeof_text ->
  ui_update_time (Some src) w =
    Some (tt, add_trace (mark_dirty w)
                (set_g_app_state (set_time_text (stored_text src)) w)).
Proof.
  intros Hlen. destruct (strncpy_then_terminate _ src Hlen) as (b & Hb & Hs).
  unfold ui_update_time, mark_dirty. unfold_prog. rewrite Hb, Hs. cbn.
  destruct (s_canvas_layer w); [reflexivity|].
  by rewrite add_trace_nil.
Qed.

Lemma appmsg_handle_pace_update_eq src w :
  length (pace_text (g_app_state w)) = sizeof_text ->
  appmsg_handle_pace_update (Some src) w = Some (tt, pace_updated src w).
Proof.
  intros Hlen. unfold appmsg_handle_pace_update.
  erewrite bind_Some by reflexivity.
  rewrite ui_update_pace_eq by exact Hlen.
  unfold pace_updated. do 2 f_equal. apply World_ext; cbn; auto.
  by rewrite <- (assoc_L (++)).
Qed.

Lemma appmsg_handle_time_update_eq src w :
  length (time_text (g_app_state w)) = sizeof_text ->
  appmsg_handle_time_update (Some src) w = Some (tt, time_updated src w).
Proof.
  intros Hlen. unfold appmsg_handle_time_update.
  erewrite bind_Some by reflexivity.
  rewrite ui_update_time_eq by exact Hlen.
  unfold time_updated. do 2 f_equal. apply World_ext; cbn; auto.
  by rewrite <- (assoc_L (++)).
Qed.

(** ** Relations a computation respects *)

Global Instance keeps_refl {A} (f : World -> A) : Reflexive (keeps f).
Proof. intros w. reflexivity. Qed.

Global Instance keeps_trans {A} (f : World -> A) : Transitive (keeps f).
Proof. unfold keeps. intros a b c H1 H2. congruence. Qed.

Global Instance preserving_refl I : Reflexive (preserving I).
Proof. intros w H. exact H. Qed.

Global Instance preserving_trans I : Transitive (preserving I).
Proof. unfold preserving. intros a b c H1 H2. auto. Qed.

Global Instance hr_kept_or_cleared_refl : Reflexive hr_kept_or_cleared.
Proof. intros w. by left. Qed.

Global Instance hr_kept_or_cleared_trans : Transitive hr_kept_or_cleared.
Proof.
  unfold hr_kept_or_cleared.
  intros a b c [H1|H1] [H2|H2]; rewrite ?H2, ?H1; auto.
Qed.

Section Respects.
Context (R : relation World) `{!Reflexive R, !Transitive R}.

Lemma respects_ret {A} (a : A) : respects R (ret a).
Proof. intros w a' w' [= _ <-]. reflexivity. Qed.

Lemma respects_bind {A B} (m : M A) (k : A -> M B) :
  respects R m -> (forall a, respects R (k a)) -> respects R (bind m k).
Proof.
  intros Hm Hk w b w' (a & w1 & H1 & H2)%bind_inv.
  transitivity w1; [eapply Hm | eapply Hk]; eassumption.
Qed.
End Respects.

(** The tests of a handler that ran, taken one by one. *)
Ltac run_cases :=
  repeat (cbn in *; first [progress simplify_eq | case_match]).

Ltac unfold_handlers :=
  unfold handle, inbox_dropped_callback, outbox_sent_callback,
    outbox_failed_callback, outbox_complete, hr_event_handler,
    appmsg_handle_command, hr_start_monitoring, hr_stop_monitoring,
    appmsg_send_hr, app_message_outbox_begin, dict_write_uint16,
    app_message_outbox_send, health_service_peek_current_value,
    health_service_set_heart_rate_sample_period, ui_show_window,
    ui_hide_window, window_stack_push, main_window_load, main_window_unload,
    ui_update_hr, init, ui_init, hr_init, appmsg_init in *.

(** Every handler but the text updates is free of loops: with the world
    and the answers of the SDK taken apart, it runs by computation. *)
Ltac by_cases w env :=
  open_world w; destruct env; unfold_handlers; unfold_prog; run_cases.

(** ** What the handlers compute *)

Lemma hr_stop_monitoring_stopped env w :
  s_hr_monitoring w = false ->
  hr_stop_monitoring env w =
    Some (tt, add_trace
      [ELog APP_LOG_LEVEL_WARNING "HR monitoring not active" NoArg] w).
Proof.
  intros H. unfold hr_stop_monitoring. unfold_prog. by rewrite H.
Qed.

Lemma hr_stop_monitoring_sampling env w :
  s_hr_monitoring w = true ->
  hr_stop_monitoring env w =
    Some (tt, add_trace
      ([ECall (HealthServiceSetHeartRateSamplePeriod 0);
        EStoreMonitoring false; EStoreHr 0] ++ mark_dirty w ++
       [ELog APP_LOG_LEVEL_INFO "HR monitoring stopped" NoArg])
      (set_g_app_state (set_current_hr 0) (set_s_hr_monitoring false w))).
Proof.
  intros H. destruct (s_canvas_layer w) eqn:Hc; open_world w; world_eq.
Qed.

Lemma hr_start_monitoring_sampling env w :
  s_hr_monitoring w = true ->
  hr_start_monitoring env w =
    Some (tt, add_trace
      [ELog APP_LOG_LEVEL_WARNING "HR monitoring already active" NoArg] w).
Proof.
  intros H. unfold hr_start_monitoring. unfold_prog. by rewrite H.
Qed.

Lemma hr_start_monitoring_stopped env w :
  s_hr_monitoring w = false ->
  hr_start_monitoring env w =
    Some (tt,
      if set_period_ok env then
        add_trace
          [ECall (HealthServiceSetHeartRateSamplePeriod 1);
           EStoreMonitoring true;
           ELog APP_LOG_LEVEL_INFO "HR monitoring started (1s interval)" NoArg]
          (set_s_hr_monitoring true w)
      else
        add_trace
          [ECall (HealthServiceSetHeartRateSamplePeriod 1);
           ELog APP_LOG_LEVEL_ERROR "Failed to set HR sample period" NoArg]
          w).
Proof.
  intros H. open_world w. destruct env as [? ? ? ? [] ? ? ? ? ?]; world_eq.
Qed.

Lemma appmsg_handle_command_unknown env cmd w :
  cmd <> CMD_START -> cmd <> CMD_STOP ->
  appmsg_handle_command env cmd w =
    Some (tt, add_trace
      [ELog APP_LOG_LEVEL_INFO "Received command: %d" (ArgInt cmd);
       ELog APP_LOG_LEVEL_WARNING "Unknown command: %d" (ArgInt cmd)] w).
Proof.
  intros H1%Z.eqb_neq H2%Z.eqb_neq. unfold appmsg_handle_command.
  unfold_prog. rewrite H1, H2. world_eq.
Qed.

Lemma appmsg_handle_command_stop env w :
  s_hr_monitoring w = true -> s_main_window w = true ->
  appmsg_handle_command env CMD_STOP w =
    Some (tt, add_trace
      ([ELog APP_LOG_LEVEL_INFO "Received command: %d" (ArgInt CMD_STOP);
        ELog APP_LOG_LEVEL_INFO "Stopping workout session" NoArg;
        ECall (HealthServiceSetHeartRateSamplePeriod 0);
        EStoreMonitoring false; EStoreHr 0] ++ mark_dirty w ++
       [ELog APP_LOG_LEVEL_INFO "HR monitoring stopped" NoArg;
        ECall (WindowStackRemove true); EStoreActive false;
        ECall (WindowStackPopAll false)])
      (set_g_app_state (fun s => set_is_active false (set_current_hr 0 s))
         (set_s_hr_monitoring false w))).
Proof.
  intros Hm Hw. destruct (s_canvas_layer w) eqn:Hc; open_world w;
    unfold appmsg_handle_command;
    change (CMD_STOP =? CMD_START)%Z with false;
    change (CMD_STOP =? CMD_STOP)%Z with true; world_eq.
Qed.

Lemma appmsg_handle_command_total env cmd w :
  exists w', appmsg_handle_command env cmd w = Some (tt, w').
Proof.
  destruct (appmsg_handle_command env cmd w) as [[[] w']|] eqn:H; [eauto|].
  exfalso. by_cases w env.
Qed.

Lemma hr_event_handler_total env event w :
  exists w', hr_event_handler env event w = Some (tt, w').
Proof.
  destruct (hr_event_handler env event w) as [[[] w']|] eqn:H; [eauto|].
  exfalso. by_cases w env.
Qed.

(** A received message, on text fields of the declared size: the texts
    first, then the command. *)
Lemma inbox_received_callback_eq env iterator w :
  text_ok w ->
  inbox_received_callback env iterator w =
    match accepted_uint8 iterator KEY_CMD with
    | Some cmd => appmsg_handle_command env cmd (after_texts iterator w)
    | None => Some (tt, after_texts iterator w)
    end.
Proof.
  intros [Hp Ht].
  unfold inbox_received_callback, after_texts, accepted_cstring,
    accepted_uint8.
  erewrite bind_Some by reflexivity.
  destruct (dict_find iterator KEY_PACE) as [tp|];
    [destruct (TupleType_eqb (type tp) TUPLE_CSTRING)|];
    (erewrite bind_Some;
       [|first [by apply appmsg_handle_pace_update_eq | reflexivity]]);
    (destruct (dict_find iterator KEY_TIME) as [tt'|];
       [destruct (TupleType_eqb (type tt') TUPLE_CSTRING)|]);
    (erewrite bind_Some;
       [|first [by apply appmsg_handle_time_update_eq | reflexivity]]);
    (destruct (dict_find iterator KEY_CMD) as [tc|];
       [destruct (TupleType_eqb (type tc) TUPLE_UINT8)|]);
    reflexivity.
Qed.

Lemma text_ok_after_texts iterator w : text_ok w -> text_ok (after_texts iterator w).
Proof.
  unfold after_texts, text_ok, pace_updated, time_updated. intros [Hp Ht].
  destruct (accepted_cstring iterator KEY_PACE),
    (accepted_cstring iterator KEY_TIME); cbn;
    rewrite ?length_stored_text; auto.
Qed.

Lemma scalars_after_texts iterator w :
  scalars (after_texts iterator w) = scalars w /\
  s_main_window (after_texts iterator w) = s_main_window w /\
  outbox (after_texts iterator w) = outbox w.
Proof.
  unfold after_texts.
  destruct (accepted_cstring iterator KEY_PACE),
    (accepted_cstring iterator KEY_TIME); done.
Qed.

Lemma inbox_received_callback_total env iterator w :
  text_ok w -> exists w', inbox_received_callback env iterator w = Some (tt, w').
Proof.
  intros H. rewrite inbox_received_callback_eq by exact H.
  destruct (accepted_uint8 iterator KEY_CMD); eauto.
  apply appmsg_handle_command_total.
Qed.

Lemma handle_total env e w :
  text_ok w -> exists w', handle env e w = Some (tt, w').
Proof.
  intros H. destruct e; cbn [handle].
  - by apply inbox_received_callback_total.
  - eexists; reflexivity.
  - eexists; reflexivity.
  - eexists; reflexivity.
  - apply hr_event_handler_total.
  - eexists; reflexivity.
  - eexists; reflexivity.
Qed.

(** ** The invariant of the event loop *)

Lemma init_spec env w :
  init env initial_world = Some (tt, w) ->
  session_ok w /\ scalars w = (false, 0%Z, false) /\ outbox w = [].
Proof.
  intros H. destruct env. unfold_handlers. unfold_prog. run_cases;
    (split; [|done]); repeat split; cbn; auto; discriminate.
Qed.

Lemma init_total env : exists w, init env initial_world = Some (tt, w).
Proof.
  destruct (init env initial_world) as [[[] w]|] eqn:H; [eauto|].
  exfalso. destruct env. unfold_handlers. unfold_prog. run_cases.
Qed.

Ltac session_ok_cases w env :=
  unfold preserving, session_ok, text_ok; by_cases w env;
  intros (? & ? & ?); cbn in *; repeat split; auto; try lia.

Lemma appmsg_handle_command_ok env cmd :
  respects (preserving session_ok) (appmsg_handle_command env cmd).
Proof. intros w [] w' H. session_ok_cases w env. Qed.

Lemma hr_event_handler_ok env event :
  respects (preserving session_ok) (hr_event_handler env event).
Proof. intros w [] w' H. session_ok_cases w env. Qed.

Lemma appmsg_send_hr_ok env hr_bpm :
  respects (preserving session_ok) (appmsg_send_hr env hr_bpm).
Proof. intros w [] w' H. session_ok_cases w env. Qed.

Lemma session_ok_after_texts iterator w :
  session_ok w -> session_ok (after_texts iterator w).
Proof.
  intros (Ht & Hw & Ho). unfold session_ok.
  destruct (scalars_after_texts iterator w) as (Hs & -> & ->).
  split; [by apply text_ok_after_texts|]. split; [|done].
  unfold scalars in Hs. by injection Hs as -> _ _.
Qed.

Lemma inbox_received_callback_ok env iterator :
  respects (preserving session_ok) (inbox_received_callback env iterator).
Proof.
  intros w [] w' H Hok.
  rewrite inbox_received_callback_eq in H by apply Hok.
  apply (session_ok_after_texts iterator) in Hok.
  destruct (accepted_uint8 iterator KEY_CMD).
  - by eapply appmsg_handle_command_ok.
  - by simplify_eq.
Qed.

Lemma handle_ok env e : respects (preserving session_ok) (handle env e).
Proof.
  destruct e; cbn [handle].
  - apply inbox_received_callback_ok.
  - intros w [] w' H. session_ok_cases w env.
  - intros w [] w' H. session_ok_cases w env.
    all: destruct outbox0; cbn in *; lia.
  - intros w [] w' H. session_ok_cases w env.
    all: destruct outbox0; cbn in *; lia.
  - apply hr_event_handler_ok.
  - intros w [] w' H. session_ok_cases w env.
  - intros w [] w' H. session_ok_cases w env.
Qed.

Lemma reachable_session_ok w : reachable w -> session_ok w.
Proof.
  induction 1 as [env w H | env e w w' _ IH _ H].
  - by apply init_spec in H as [? _].
  - by eapply handle_ok.
Qed.

Lemma run_reachable es : forall w0 w,
  reachable w0 -> run es w0 = Some w -> reachable w.
Proof.
  induction es as [|[env e] es IH]; intros w0 w Hr H; cbn in H.
  - by simplify_eq.
  - destruct (enabled e w0) eqn:He; [|done].
    destruct (handle env e w0) as [[[] w1]|] eqn:Hh; [|done].
    eapply IH; [|exact H]. by eapply reachable_step.
Qed.

Lemma run_app es1 es2 w0 :
  run (es1 ++ es2) w0 = run es1 w0 ≫= run es2.
Proof.
  revert w0. induction es1 as [|[env e] es1 IH]; intros w0; cbn; [done|].
  destruct (enabled e w0); [|done].
  destruct (handle env e w0) as [[[] w1]|]; [|done]. apply IH.
Qed.

Lemma reachable_w_boot : reachable w_boot.
Proof. apply (reachable_init (env_ok None)). vm_compute. reflexivity. Qed.

Lemma reachable_w_active : reachable w_active.
Proof.
  apply (run_reachable [(env_ok None, InboxReceived (cmd_message x01))]
           w_boot w_active reachable_w_boot).
  vm_compute. reflexivity.
Qed.

Lemma reachable_w_sent : reachable w_sent.
Proof.
  apply (run_reachable
           [(env_ok (Some 142%Z), HealthEvent HealthEventHeartRateUpdate)]
           w_active w_sent reachable_w_active).
  vm_compute. reflexivity.
Qed.

(** ** The heart rate between readings *)

Lemma appmsg_handle_command_hr env cmd :
  respects hr_kept_or_cleared (appmsg_handle_command env cmd).
Proof.
  intros w [] w' H. unfold hr_kept_or_cleared. by_cases w env; auto.
Qed.

Lemma hr_start_monitoring_hr env :
  respects hr_kept_or_cleared (hr_start_monitoring env).
Proof.
  intros w [] w' H. unfold hr_kept_or_cleared. by_cases w env; auto.
Qed.

Lemma hr_stop_monitoring_hr env :
  respects hr_kept_or_cleared (hr_stop_monitoring env).
Proof.
  intros w [] w' H. unfold hr_kept_or_cleared. by_cases w env; auto.
Qed.

Lemma inbox_received_callback_hr env iterator w w' :
  text_ok w ->
  inbox_received_callback env iterator w = Some (tt, w') ->
  hr_kept_or_cleared w w'.
Proof.
  intros Hok H. rewrite inbox_received_callback_eq in H by exact Hok.
  destruct (scalars_after_texts iterator w) as (Hs & _ & _).
  assert (hr_kept_or_cleared w (after_texts iterator w)) as Hw.
  { left. unfold scalars in Hs. by injection Hs as _ -> _. }
  destruct (accepted_uint8 iterator KEY_CMD).
  - etransitivity; [exact Hw|]. by eapply appmsg_handle_command_hr.
  - by simplify_eq.
Qed.

(** A handler that is not given a valid reading keeps [current_hr] or
    clears it. *)
Lemma handle_hr env e w w' :
  text_ok w ->
  valid_sample (env, e) = false ->
  handle env e w = Some (tt, w') ->
  hr_kept_or_cleared w w'.
Proof.
  intros Hok Hv H. destruct e; cbn [handle] in H.
  - by eapply inbox_received_callback_hr.
  - unfold hr_kept_or_cleared. by_cases w env; auto.
  - unfold hr_kept_or_cleared. by_cases w env; auto.
  - unfold hr_kept_or_cleared. by_cases w env; auto.
  - unfold hr_kept_or_cleared, valid_sample in *. by_cases w env; auto.
  - unfold hr_kept_or_cleared. by_cases w env; auto.
  - unfold hr_kept_or_cleared. by_cases w env; auto.
Qed.

Lemma run_hr es : forall w0 w,
  session_ok w0 -> run es w0 = Some w -> no_reading es = true ->
  hr_kept_or_cleared w0 w.
Proof.
  induction es as [|[env e] es IH]; intros w0 w Hok H Hn; cbn in H.
  - simplify_eq. reflexivity.
  - destruct (enabled e w0) eqn:He; [|done].
    destruct (handle env e w0) as [[[] w1]|] eqn:Hh; [|done].
    cbn [no_reading forallb] in Hn.
    apply andb_prop in Hn as [Hv%negb_true_iff Hn].
    transitivity w1.
    + eapply handle_hr; [apply Hok | exact Hv | exact Hh].
    + apply IH; [by eapply handle_ok | exact H | exact Hn].
Qed.

Lemma hr_start_monitoring_total env w :
  exists w', hr_start_monitoring env w = Some (tt, w').
Proof.
  destruct (s_hr_monitoring w) eqn:H.
  - rewrite hr_start_monitoring_sampling by exact H. eauto.
  - rewrite hr_start_monitoring_stopped by exact H. eauto.
Qed.

Lemma hr_stop_monitoring_total env w :
  exists w', hr_stop_monitoring env w = Some (tt, w').
Proof.
  destruct (s_hr_monitoring w) eqn:H.
  - rewrite hr_stop_monitoring_sampling by exact H. eauto.
  - rewrite hr_stop_monitoring_stopped by exact H. eauto.
Qed.

(** ** The session and the sensor monitor *)

(** C1: a CMD message with value 2 (CMD_STOP), dispatched while the
    session is active and the monitor is sampling, first stops the
    monitor, which stores 0 to [current_hr] and marks the canvas dirty,
    and only then hides the session view; afterwards [current_hr] is 0
    and [is_active] is false. *)
Theorem stop_command_order env w :
  reachable w ->
  is_active (g_app_state w) = true ->
  s_hr_monitoring w = true ->
  exists w',
    inbox_received_callback env (cmd_message x02) w = Some (tt, w') /\
    trace w' =
      trace w ++
      [ELog APP_LOG_LEVEL_INFO "AppMessage received" NoArg;
       ELog APP_LOG_LEVEL_INFO "Received command: %d" (ArgInt CMD_STOP);
       ELog APP_LOG_LEVEL_INFO "Stopping workout session" NoArg;
       ECall (HealthServiceSetHeartRateSamplePeriod 0);
       EStoreMonitoring false;
       EStoreHr 0] ++
      mark_dirty w ++
      [ELog APP_LOG_LEVEL_INFO "HR monitoring stopped" NoArg;
       ECall (WindowStackRemove true);
       EStoreActive false;
       ECall (WindowStackPopAll false)] /\
    current_hr (g_app_state w') = 0%Z /\
    is_active (g_app_state w') = false /\
    s_hr_monitoring w' = false /\
    texts w' = texts w.
Proof.
  intros Hr Ha Hm.
  destruct (reachable_session_ok w Hr) as (Ht & Hw & _).
  specialize (Hw Ha).
  rewrite inbox_received_callback_eq by exact Ht.
  change (accepted_uint8 (cmd_message x02) KEY_CMD) with (Some CMD_STOP).
  change (after_texts (cmd_message x02) w)
    with (add_trace [ELog APP_LOG_LEVEL_INFO "AppMessage received" NoArg] w).
  cbv beta iota.
  rewrite appmsg_handle_command_stop by assumption.
  eexists; split; [reflexivity|].
  repeat split. cbn. by rewrite <- app_assoc.
Qed.

Lemma stop_command_order_witness :
  reachable w_active /\
  is_active (g_app_state w_active) = true /\
  s_hr_monitoring w_active = true /\
  exists w',
    inbox_received_callback (env_ok None) (cmd_message x02) w_active
      = Some (tt, w') /\
    current_hr (g_app_state w') = 0%Z /\
    is_active (g_app_state w') = false.
Proof.
  split; [exact reachable_w_active|].
  split; [vm_compute; reflexivity|].
  split; [vm_compute; reflexivity|].
  destruct (stop_command_order (env_ok None) w_active reachable_w_active)
    as (w' & H & _ & Hhr & Hact & _);
    [vm_compute; reflexivity | vm_compute; reflexivity |].
  exists w'. auto.
Defined.

(** C2 fails as stated, with the monitor read as the flag
    [s_hr_monitoring]: a sample of 142 BPM delivered after [init] leaves
    a world in which the session is not active, the monitor is stopped
    and was never set to sampling, and [current_hr] is 142; and after a
    start whose sample period is refused, that sample and a stop, the
    session is not active again and [current_hr] is still 142, the stop
    on the stopped monitor having cleared nothing. *)
Lemma reading_without_monitoring :
  init (env_ok None) initial_world = Some (tt, w_boot) /\
  (exists w,
     run idle_sample_events w_boot = Some w /\
     is_active (g_app_state w) = false /\
     s_hr_monitoring w = false /\
     ~ In (EStoreMonitoring true) (trace w) /\
     current_hr (g_app_state w) = 142%Z) /\
  (exists w,
     run stale_stop_events w_boot = Some w /\
     is_active (g_app_state w) = false /\
     s_hr_monitoring w = false /\
     ~ In (EStoreMonitoring true) (trace w) /\
     current_hr (g_app_state w) = 142%Z).
Proof.
  split; [vm_compute; reflexivity|].
  split; (eexists; split; [vm_compute; reflexivity|]);
    (split; [reflexivity|]); (split; [reflexivity|]);
    (split; [|reflexivity]); vm_compute; intuition discriminate.
Qed.

(** C2, amended: in every world the event loop reaches, [current_hr] is
    0 as long as no valid reading was delivered, in either state of the
    monitor and whether the session is active or not; stopping a
    sampling monitor forces it to 0, and a stop on a stopped monitor
    leaves it as it is; and the predicate holds again after every
    handler of the loop and after the command handler, start and stop
    run from such a world. *)
Theorem current_hr_zero_invariant env0 w0 es w :
  init env0 initial_world = Some (tt, w0) ->
  run es w0 = Some w ->
  (no_reading es = true -> current_hr (g_app_state w) = 0%Z) /\
  (s_hr_monitoring w = true ->
   exists w', (forall env, hr_stop_monitoring env w = Some (tt, w')) /\
              s_hr_monitoring w' = false /\
              current_hr (g_app_state w') = 0%Z) /\
  (s_hr_monitoring w = false ->
   exists w', (forall env, hr_stop_monitoring env w = Some (tt, w')) /\
              s_hr_monitoring w' = false /\
              current_hr (g_app_state w') = current_hr (g_app_state w)) /\
  (forall env e, enabled e w = true ->
   exists w', handle env e w = Some (tt, w') /\
     (no_reading (es ++ [(env, e)]) = true ->
      current_hr (g_app_state w') = 0%Z)) /\
  (forall env cmd,
   exists w', appmsg_handle_command env cmd w = Some (tt, w') /\
     (no_reading es = true -> current_hr (g_app_state w') = 0%Z)) /\
  (forall env,
   exists w', hr_start_monitoring env w = Some (tt, w') /\
     (no_reading es = true -> current_hr (g_app_state w') = 0%Z)) /\
  (forall env,
   exists w', hr_stop_monitoring env w = Some (tt, w') /\
     (no_reading es = true -> current_hr (g_app_state w') = 0%Z)).
Proof.
  intros Hinit Hrun.
  destruct (init_spec _ _ Hinit) as (Hok0 & Hs0 & _).
  assert (current_hr (g_app_state w0) = 0%Z) as Hhr0
    by (unfold scalars in Hs0; by injection Hs0 as _ -> _).
  assert (session_ok w) as Hok.
  { apply reachable_session_ok, (run_reachable es w0); [|exact Hrun].
    by eapply reachable_init. }
  assert (forall es' w1, run es' w0 = Some w1 -> no_reading es' = true ->
          current_hr (g_app_state w1) = 0%Z) as Hzero.
  { intros es' w1 H1 Hn.
    destruct (run_hr es' w0 w1 Hok0 H1 Hn) as [->|]; done. }
  assert (forall w', hr_kept_or_cleared w w' -> no_reading es = true ->
          current_hr (g_app_state w') = 0%Z) as Hstep.
  { intros w' [->|] Hn; [|done]. by eapply Hzero. }
  split; [by apply Hzero|].
  split.
  { intros Hm. eexists. split.
    - intros env. by apply hr_stop_monitoring_sampling.
    - done. }
  split.
  { intros Hm. eexists. split.
    - intros env. by apply hr_stop_monitoring_stopped.
    - split; [exact Hm | reflexivity]. }
  split.
  { intros env e He.
    destruct (handle_total env e w) as [w' Hh]; [apply Hok|].
    exists w'. split; [exact Hh|]. apply Hzero.
    rewrite run_app, Hrun. cbn. by rewrite He, Hh. }
  split.
  { intros env cmd.
    destruct (appmsg_handle_command_total env cmd w) as [w' H].
    exists w'. split; [exact H|]. apply Hstep.
    by eapply appmsg_handle_command_hr. }
  split.
  { intros env.
    destruct (hr_start_monitoring_total env w) as [w' H].
    exists w'. split; [exact H|]. apply Hstep.
    by eapply hr_start_monitoring_hr. }
  intros env.
  destruct (hr_stop_monitoring_total env w) as [w' H].
  exists w'. split; [exact H|]. apply Hstep.
  by eapply hr_stop_monitoring_hr.
Qed.

Lemma current_hr_zero_invariant_witness :
  init (env_ok None) initial_world = Some (tt, w_boot) /\
  run session_events w_boot = Some w_stopped /\
  no_reading session_events = true /\
  current_hr (g_app_state w_stopped) = 0%Z.
Proof.
  split; [vm_compute; reflexivity|].
  split; [vm_compute; reflexivity|].
  split; [vm_compute; reflexivity|].
  refine (proj1 (current_hr_zero_invariant (env_ok None) w_boot
    session_events w_stopped _ _) _); vm_compute; reflexivity.
Defined.

(** C7: [hr_start_monitoring] on a monitor that is sampling, and
    [hr_stop_monitoring] on a monitor that is stopped, leave the world as
    it is but for one warning in the trace: no store, no SDK call. *)
Theorem start_stop_idempotent env w :
  (s_hr_monitoring w = true ->
   hr_start_monitoring env w =
     Some (tt, add_trace
       [ELog APP_LOG_LEVEL_WARNING "HR monitoring already active" NoArg] w))
  /\
  (s_hr_monitoring w = false ->
   hr_stop_monitoring env w =
     Some (tt, add_trace
       [ELog APP_LOG_LEVEL_WARNING "HR monitoring not active" NoArg] w)).
Proof.
  split.
  - apply hr_start_monitoring_sampling.
  - apply hr_stop_monitoring_stopped.
Qed.

Lemma start_stop_idempotent_witness :
  (s_hr_monitoring w_active = true /\
   hr_start_monitoring env_period_fails w_active =
     Some (tt, add_trace
       [ELog APP_LOG_LEVEL_WARNING "HR monitoring already active" NoArg]
       w_active))
  /\
  (s_hr_monitoring w_boot = false /\
   hr_stop_monitoring env_period_fails w_boot =
     Some (tt, add_trace
       [ELog APP_LOG_LEVEL_WARNING "HR monitoring not active" NoArg]
       w_boot)).
Proof.
  split; (split; [vm_compute; reflexivity|]).
  - apply (proj1 (start_stop_idempotent env_period_fails w_active)).
    vm_compute; reflexivity.
  - apply (proj2 (start_stop_idempotent env_period_fails w_boot)).
    vm_compute; reflexivity.
Defined.

(** C8: a command other than 1 (CMD_START) and 2 (CMD_STOP) leaves the
    world as it is but for two reports, the reception of the command and
    one warning: no store, no call to the sensor or to the window. *)
Theorem unknown_command_ignored env cmd w :
  cmd <> CMD_START ->
  cmd <> CMD_STOP ->
  exists es,
    appmsg_handle_command env cmd w = Some (tt, add_trace es w) /\
    es = [ELog APP_LOG_LEVEL_INFO "Received command: %d" (ArgInt cmd);
          ELog APP_LOG_LEVEL_WARNING "Unknown command: %d" (ArgInt cmd)] /\
    warnings es = 1.
Proof.
  intros H1 H2. eexists. split; [by apply appmsg_handle_command_unknown|].
  split; reflexivity.
Qed.

Lemma unknown_command_ignored_witness :
  99%Z <> CMD_START /\ 99%Z <> CMD_STOP /\
  exists es,
    appmsg_handle_command (env_ok None) 99 w_active
      = Some (tt, add_trace es w_active) /\
    es = [ELog APP_LOG_LEVEL_INFO "Received command: %d" (ArgInt 99);
          ELog APP_LOG_LEVEL_WARNING "Unknown command: %d" (ArgInt 99)] /\
    warnings es = 1.
Proof.
  split; [discriminate|]. split; [discriminate|].
  apply (unknown_command_ignored (env_ok None) 99 w_active); discriminate.
Defined.

(** C9: [hr_start_monitoring] on a stopped monitor asks for the sample
    period of 1 second and sets [s_hr_monitoring] exactly when the SDK
    accepts it; when the SDK refuses, the world is as before but for the
    call and the report of the failure. *)
Theorem start_needs_sample_period env w :
  s_hr_monitoring w = false ->
  exists w',
    hr_start_monitoring env w = Some (tt, w') /\
    s_hr_monitoring w' = set_period_ok env /\
    g_app_state w' = g_app_state w /\
    (set_period_ok env = true ->
     w' = add_trace
            [ECall (HealthServiceSetHeartRateSamplePeriod 1);
             EStoreMonitoring true;
             ELog APP_LOG_LEVEL_INFO "HR monitoring started (1s interval)"
               NoArg]
            (set_s_hr_monitoring true w)) /\
    (set_period_ok env = false ->
     w' = add_trace
            [ECall (HealthServiceSetHeartRateSamplePeriod 1);
             ELog APP_LOG_LEVEL_ERROR "Failed to set HR sample period" NoArg]
            w).
Proof.
  intros H. rewrite hr_start_monitoring_stopped by exact H.
  eexists. split; [reflexivity|].
  destruct (set_period_ok env); cbn; repeat split; auto; discriminate.
Qed.

Lemma start_needs_sample_period_witness :
  s_hr_monitoring w_boot = false /\
  exists w',
    hr_start_monitoring env_period_fails w_boot = Some (tt, w') /\
    s_hr_monitoring w' = false.
Proof.
  split; [vm_compute; reflexivity|].
  destruct (start_needs_sample_period env_period_fails w_boot)
    as (w' & H & Hm & _); [vm_compute; reflexivity|].
  exists w'. split; [exact H | exact Hm].
Defined.

(** C10: [hr_stop_monitoring] on a sampling monitor clears
    [s_hr_monitoring] and stores 0 to [current_hr] whatever the SDK
    answers to the request for the default sample period: the world
    after the stop does not depend on the answers. *)
Theorem stop_ignores_sample_period w :
  s_hr_monitoring w = true ->
  exists w',
    (forall env, hr_stop_monitoring env w = Some (tt, w')) /\
    s_hr_monitoring w' = false /\
    current_hr (g_app_state w') = 0%Z /\
    trace w' =
      trace w ++
      [ECall (HealthServiceSetHeartRateSamplePeriod 0);
       EStoreMonitoring false; EStoreHr 0] ++ mark_dirty w ++
      [ELog APP_LOG_LEVEL_INFO "HR monitoring stopped" NoArg].
Proof.
  intros H. eexists. split.
  - intros env. by apply hr_stop_monitoring_sampling.
  - repeat split.
Qed.

Lemma stop_ignores_sample_period_witness :
  s_hr_monitoring w_active = true /\
  exists w',
    hr_stop_monitoring env_period_fails w_active = Some (tt, w') /\
    hr_stop_monitoring (env_ok None) w_active = Some (tt, w') /\
    s_hr_monitoring w' = false /\
    current_hr (g_app_state w') = 0%Z.
Proof.
  split; [vm_compute; reflexivity|].
  destruct (stop_ignores_sample_period w_active)
    as (w' & H & Hm & Hhr & _); [vm_compute; reflexivity|].
  exists w'. auto.
Defined.

(** ** Heart-rate samples *)

Lemma to_uint16_small v : (0 <= v < 65536)%Z -> to_uint16 v = v.
Proof. apply Z.mod_small. Qed.

(** C3 fails as stated: the sample of 142 BPM delivered after [init],
    before any command, finds the monitor stopped, and the reading is
    stored and sent all the same. *)
Lemma sample_forwarded_while_stopped :
  reachable w_boot /\
  s_hr_monitoring w_boot = false /\
  enabled (HealthEvent HealthEventHeartRateUpdate) w_boot = true /\
  exists w',
    handle (env_ok (Some 142%Z)) (HealthEvent HealthEventHeartRateUpdate)
      w_boot = Some (tt, w') /\
    s_hr_monitoring w' = false /\
    current_hr (g_app_state w') = 142%Z /\
    outbox w' = [[(KEY_HR, 142%Z)]] /\
    trace w' =
      trace w_boot ++
      [ECall HealthServicePeekCurrentValue; EStoreHr 142;
       ECall AppMessageOutboxBegin; ECall (DictWriteUint16 KEY_HR 142);
       ECall AppMessageOutboxSend;
       ELog APP_LOG_LEVEL_INFO "HR: %d BPM" (ArgInt 142)].
Proof.
  split; [exact reachable_w_boot|].
  split; [vm_compute; reflexivity|].
  split; [vm_compute; reflexivity|].
  eexists. split; [vm_compute; reflexivity|].
  repeat split.
Qed.

(** C3, amended: a valid heart-rate sample is stored to [current_hr]
    (as a [uint16_t]) and its send is attempted whether the monitor is
    sampling or stopped, the handler does not read [s_hr_monitoring]; an
    invalid reading is reported and changes nothing; an accepted send is
    in the outbox afterwards. *)
Theorem sample_forwarded_in_any_state env w :
  match peek_value env with
  | Some v =>
      exists w' rest,
        hr_event_handler env HealthEventHeartRateUpdate w = Some (tt, w') /\
        current_hr (g_app_state w') = to_uint16 v /\
        s_hr_monitoring w' = s_hr_monitoring w /\
        trace w' =
          trace w ++
          [ECall HealthServicePeekCurrentValue; EStoreHr (to_uint16 v)] ++
          mark_dirty w ++ ECall AppMessageOutboxBegin :: rest /\
        (outbox w = [] -> begin_result env = APP_MSG_OK ->
         write_result env = DICT_OK -> send_result env = APP_MSG_OK ->
         outbox w' = [[(KEY_HR, to_uint16 v)]])
  | None =>
      hr_event_handler env HealthEventHeartRateUpdate w =
        Some (tt, add_trace
          [ECall HealthServicePeekCurrentValue;
           ELog APP_LOG_LEVEL_WARNING "Invalid HR reading" NoArg] w)
  end.
Proof.
  destruct (hr_event_handler_total env HealthEventHeartRateUpdate w)
    as [w' H].
  destruct (peek_value env) as [v|] eqn:Hv.
  - exists w'. destruct (s_canvas_layer w) eqn:Hc;
      unfold mark_dirty; rewrite Hc; rewrite H;
      by_cases w env;
      (eexists; split; [reflexivity|]; repeat split;
       [run_prog; rewrite <- ?app_assoc; reflexivity
       | intros; simplify_eq..]).
  - rewrite H. by_cases w env. world_eq.
Qed.

Lemma sample_forwarded_in_any_state_witness :
  s_hr_monitoring w_boot = false /\
  outbox w_boot = [] /\
  exists w' rest,
    hr_event_handler (env_ok (Some 142%Z)) HealthEventHeartRateUpdate w_boot
      = Some (tt, w') /\
    current_hr (g_app_state w') = 142%Z /\
    s_hr_monitoring w' = false /\
    trace w' =
      trace w_boot ++
      [ECall HealthServicePeekCurrentValue; EStoreHr 142] ++
      mark_dirty w_boot ++ ECall AppMessageOutboxBegin :: rest /\
    outbox w' = [[(KEY_HR, 142%Z)]].
Proof.
  split; [vm_compute; reflexivity|].
  split; [vm_compute; reflexivity|].
  destruct (sample_forwarded_in_any_state (env_ok (Some 142%Z)) w_boot)
    as (w' & rest & H & Hhr & Hm & Ht & Ho).
  exists w', rest. repeat split; try assumption.
  apply Ho; vm_compute; reflexivity.
Defined.

(** ** The outbox *)

Lemma appmsg_send_hr_busy env hr_bpm w :
  outbox w <> [] ->
  appmsg_send_hr env hr_bpm w =
    Some (tt, add_trace
      [ECall AppMessageOutboxBegin;
       ELog APP_LOG_LEVEL_ERROR "Failed to begin outbox: %d"
         (ArgAppMsg APP_MSG_BUSY)] w).
Proof.
  intros H. open_world w.
  match goal with H : ?o <> [] |- _ => destruct o; [done|] end.
  world_eq.
Qed.

(** C4: while a send has not completed, a second [appmsg_send_hr] is
    refused with [APP_MSG_BUSY]: the refusal is reported, the session
    state and the send in the outbox are as before; and the outbox never
    holds more than one send, now or after any handler. *)
Theorem second_send_is_busy w :
  reachable w ->
  length (outbox w) <= 1 /\
  (forall env hr_bpm, outbox w <> [] ->
   appmsg_send_hr env hr_bpm w =
     Some (tt, add_trace
       [ECall AppMessageOutboxBegin;
        ELog APP_LOG_LEVEL_ERROR "Failed to begin outbox: %d"
          (ArgAppMsg APP_MSG_BUSY)] w)) /\
  (forall env e w', enabled e w = true -> handle env e w = Some (tt, w') ->
   length (outbox w') <= 1).
Proof.
  intros Hr. split; [apply (reachable_session_ok w Hr)|]. split.
  - intros env hr_bpm. apply appmsg_send_hr_busy.
  - intros env e w' He Hh.
    apply (reachable_session_ok w'). by eapply reachable_step.
Qed.

Lemma second_send_is_busy_witness :
  reachable w_sent /\
  outbox w_sent = [[(KEY_HR, 142%Z)]] /\
  appmsg_send_hr (env_ok None) 150 w_sent =
    Some (tt, add_trace
      [ECall AppMessageOutboxBegin;
       ELog APP_LOG_LEVEL_ERROR "Failed to begin outbox: %d"
         (ArgAppMsg APP_MSG_BUSY)] w_sent).
Proof.
  split; [exact reachable_w_sent|].
  split; [vm_compute; reflexivity|].
  apply (proj1 (proj2 (second_send_is_busy w_sent reachable_w_sent))).
  vm_compute. discriminate.
Defined.

(** ** Text updates *)

Lemma mark_dirty_silent w :
  forallb (fun e => negb (is_failure_report e)) (mark_dirty w) = true.
Proof. unfold mark_dirty. by destruct (s_canvas_layer w). Qed.

(** C5: a PACE or TIME update from a string of any length is stored
    without a store outside the 16-byte array: the array holds at most 15
    characters of the string and then NUL, a string longer than 15 is cut
    to its first 15 characters, the other fields are as before, nothing
    but a debug report and the redraw request is emitted, and no test of
    the session state guards the update. *)
Theorem text_update_truncates src w :
  text_ok w ->
  (exists w',
     appmsg_handle_pace_update (Some src) w = Some (tt, w') /\
     pace_text (g_app_state w') = stored_text src /\
     time_text (g_app_state w') = time_text (g_app_state w) /\
     scalars w' = scalars w /\
     trace w' =
       trace w ++
       ELog APP_LOG_LEVEL_DEBUG "Pace update: %s" (ArgStr (cstring src))
       :: mark_dirty w) /\
  (exists w',
     appmsg_handle_time_update (Some src) w = Some (tt, w') /\
     time_text (g_app_state w') = stored_text src /\
     pace_text (g_app_state w') = pace_text (g_app_state w) /\
     scalars w' = scalars w /\
     trace w' =
       trace w ++
       ELog APP_LOG_LEVEL_DEBUG "Time update: %s" (ArgStr (cstring src))
       :: mark_dirty w) /\
  length (stored_text src) = sizeof_text /\
  cstring (stored_text src) = take 15 (cstring src) /\
  (15 < strlen src ->
   stored_text src = take 15 src ++ [x00] /\ strlen (stored_text src) = 15) /\
  (strlen src <= 15 -> cstring (stored_text src) = cstring src) /\
  forallb (fun e => negb (is_failure_report e)) (mark_dirty w) = true.
Proof.
  intros [Hp Ht].
  split.
  { rewrite appmsg_handle_pace_update_eq by exact Hp.
    eexists. split; [reflexivity|]. by repeat split. }
  split.
  { rewrite appmsg_handle_time_update_eq by exact Ht.
    eexists. split; [reflexivity|]. by repeat split. }
  split; [apply length_stored_text|].
  split; [apply cstring_stored_text|].
  split.
  { intros Hlong. split; [by apply stored_text_long|].
    unfold strlen in *. rewrite cstring_stored_text, length_take.
    unfold sizeof_text. lia. }
  split.
  { intros Hshort. rewrite cstring_stored_text. by apply take_ge. }
  apply mark_dirty_silent.
Qed.

Lemma text_update_truncates_witness :
  text_ok w_active /\
  strlen long_text = 1000 /\
  exists w',
    appmsg_handle_pace_update (Some long_text) w_active = Some (tt, w') /\
    pace_text (g_app_state w') = replicate 15 "a"%byte ++ [x00] /\
    time_text (g_app_state w') = time_text (g_app_state w_active).
Proof.
  assert (text_ok w_active) as Hok by (split; vm_compute; reflexivity).
  split; [exact Hok|].
  split; [vm_compute; reflexivity|].
  destruct (text_update_truncates long_text w_active Hok)
    as ((w' & H & Hp & Ht & _) & _ & _ & _ & Hlong & _).
  exists w'. split; [exact H|]. split; [|exact Ht].
  rewrite Hp. apply Hlong. vm_compute. lia.
Defined.

(** ** Dispatch of a received message *)

Lemma dict_find_filter iterator k :
  dispatched_key k = true ->
  dict_find (List.filter (fun t => dispatched_key (key t)) iterator) k =
  dict_find iterator k.
Proof.
  intros Hk. induction iterator as [|t rest IH]; cbn; [done|].
  destruct (dispatched_key (key t)) eqn:Ht; cbn.
  - by rewrite IH.
  - destruct (key t =? k)%Z eqn:E; [|exact IH].
    apply Z.eqb_eq in E. congruence.
Qed.

(** The handler reads a message through three lookups only. *)
Lemma inbox_received_callback_ext env iterator iterator' :
  (forall k, dispatched_key k = true ->
             dict_find iterator' k = dict_find iterator k) ->
  inbox_received_callback env iterator' = inbox_received_callback env iterator.
Proof.
  intros H. unfold inbox_received_callback.
  by rewrite !H.
Qed.

Lemma appmsg_handle_command_texts env cmd :
  respects (keeps texts) (appmsg_handle_command env cmd).
Proof.
  intros w [] w' H. unfold keeps, texts. by_cases w env; reflexivity.
Qed.

Lemma after_texts_none iterator w :
  accepted_cstring iterator KEY_PACE = None ->
  accepted_cstring iterator KEY_TIME = None ->
  after_texts iterator w =
    add_trace [ELog APP_LOG_LEVEL_INFO "AppMessage received" NoArg] w.
Proof. unfold after_texts. by intros -> ->. Qed.

Lemma accepted_uint8_cstring iterator k t :
  dict_find iterator k = Some t -> type t = TUPLE_CSTRING ->
  accepted_uint8 iterator k = None.
Proof. unfold accepted_uint8. by intros -> ->. Qed.

(** C6: a received message is acted on through its PACE, TIME and CMD
    fields only, and each of them only with its declared type: a PACE or
    TIME field that is not a string leaves the text as it was, a CMD
    field that is not an 8-bit unsigned integer (a string, say) leaves
    the scalars of the session and the monitor as they were, with no
    effect beyond those of the texts; a message none of whose fields is
    accepted only reports its reception; the handler returns; and
    fields with other keys make no difference. *)
Theorem dispatch_checks_types env iterator w :
  text_ok w ->
  exists w',
    inbox_received_callback env iterator w = Some (tt, w') /\
    (accepted_cstring iterator KEY_PACE = None ->
     pace_text (g_app_state w') = pace_text (g_app_state w)) /\
    (accepted_cstring iterator KEY_TIME = None ->
     time_text (g_app_state w') = time_text (g_app_state w)) /\
    (accepted_uint8 iterator KEY_CMD = None ->
     w' = after_texts iterator w /\ scalars w' = scalars w) /\
    (forall t, dict_find iterator KEY_CMD = Some t ->
               type t = TUPLE_CSTRING ->
     w' = after_texts iterator w /\ scalars w' = scalars w) /\
    (accepted_cstring iterator KEY_PACE = None ->
     accepted_cstring iterator KEY_TIME = None ->
     accepted_uint8 iterator KEY_CMD = None ->
     w' = add_trace [ELog APP_LOG_LEVEL_INFO "AppMessage received" NoArg] w) /\
    inbox_received_callback env
      (List.filter (fun t => dispatched_key (key t)) iterator) w
      = Some (tt, w').
Proof.
  intros Hok.
  destruct (inbox_received_callback_total env iterator w Hok) as [w' H].
  exists w'. split; [exact H|].
  assert (keeps texts (after_texts iterator w) w') as Htexts.
  { rewrite inbox_received_callback_eq in H by exact Hok.
    destruct (accepted_uint8 iterator KEY_CMD).
    - by eapply appmsg_handle_command_texts.
    - by simplify_eq. }
  assert (accepted_uint8 iterator KEY_CMD = None ->
          w' = after_texts iterator w /\ scalars w' = scalars w) as Hcmd.
  { intros Hc. rewrite inbox_received_callback_eq, Hc in H by exact Hok.
    simplify_eq. split; [done|]. apply scalars_after_texts. }
  unfold keeps, texts in Htexts. injection Htexts as Hp Ht.
  split.
  { intros Hn. rewrite Hp. unfold after_texts. rewrite Hn.
    by destruct (accepted_cstring iterator KEY_TIME). }
  split.
  { intros Hn. rewrite Ht. unfold after_texts. rewrite Hn.
    by destruct (accepted_cstring iterator KEY_PACE). }
  split; [exact Hcmd|].
  split.
  { intros t Hf Hty. by eapply Hcmd, accepted_uint8_cstring. }
  split.
  { intros Hn1 Hn2 Hn3. destruct (Hcmd Hn3) as [-> _].
    by apply after_texts_none. }
  rewrite (inbox_received_callback_ext env iterator
             (List.filter (fun t => dispatched_key (key t)) iterator));
    [exact H|].
  intros k Hk. by apply dict_find_filter.
Qed.

Lemma dispatch_checks_types_witness :
  text_ok w_active /\
  (exists t, dict_find odd_message KEY_CMD = Some t /\
             type t = TUPLE_CSTRING) /\
  inbox_received_callback (env_ok None) odd_message w_active =
    Some (tt, add_trace
      [ELog APP_LOG_LEVEL_INFO "AppMessage received" NoArg] w_active).
Proof.
  assert (text_ok w_active) as Hok by (split; vm_compute; reflexivity).
  split; [exact Hok|].
  split; [eexists; split; vm_compute; reflexivity|].
  destruct (dispatch_checks_types (env_ok None) odd_message w_active Hok)
    as (w' & H & _ & _ & _ & _ & Hnone & _).
  rewrite H. do 2 f_equal. apply Hnone; vm_compute; reflexivity.
Defined.

(** ** The scenario of the specification *)

(** Start, a sample of 142 BPM, the completion of its send, a pace
    update and stop, from the world [init] leaves. *)
Example end_to_end_scenario :
  exists w1 w2 w3 w4,
    run [(env_ok None, InboxReceived (cmd_message x01))] w_boot = Some w1 /\
    is_active (g_app_state w1) = true /\
    s_hr_monitoring w1 = true /\
    run [(env_ok (Some 142%Z), HealthEvent HealthEventHeartRateUpdate)] w1
      = Some w2 /\
    current_hr (g_app_state w2) = 142%Z /\
    outbox w2 = [[(KEY_HR, 142%Z)]] /\
    run [(env_ok None, OutboxSent);
         (env_ok None,
          InboxReceived
            [mkTuple KEY_PACE TUPLE_CSTRING
               (String.list_byte_of_string "5:30/km")])] w2 = Some w3 /\
    cstring (pace_text (g_app_state w3))
      = String.list_byte_of_string "5:30/km" /\
    outbox w3 = [] /\
    run [(env_ok None, InboxReceived (cmd_message x02))] w3 = Some w4 /\
    current_hr (g_app_state w4) = 0%Z /\
    is_active (g_app_state w4) = false /\
    s_hr_monitoring w4 = false.
Proof.
  do 4 eexists.
  repeat (split; [vm_compute; reflexivity|]).
  vm_compute; reflexivity.
Qed.

(** * Further properties of the handlers *)

Ltac unfold_teardown :=
  unfold deinit, hr_deinit, appmsg_deinit, ui_deinit in *.

(** The trace of a handler that ran is the trace before and what the
    handler added. *)
(** Closing the cases of a statement about tests and lists of effects. *)
Ltac finish :=
  cbn; rewrite ?orb_true_r, ?orb_false_r; intuition (try congruence);
  try match goal with
      | |- ?b = _ => is_var b; destruct b; intuition congruence
      end.

Ltac added_effects :=
  eexists; split; [run_prog; rewrite <- ?app_assoc; reflexivity|].

(** ** Commands *)

(** X1: CMD_START sets [is_active] when the window exists (and leaves it
    otherwise) and sets [s_hr_monitoring] when the SDK accepts the sample
    period (and leaves it otherwise), the one independently of the other;
    the window is pushed exactly when it exists, the period is requested
    exactly when the monitor was stopped; [current_hr] and the texts are
    as before. *)
Theorem start_command_effects env w :
  exists w' es,
    appmsg_handle_command env CMD_START w = Some (tt, w') /\
    trace w' = trace w ++ es /\
    is_active (g_app_state w')
      = (is_active (g_app_state w) || s_main_window w) /\
    s_hr_monitoring w' = (s_hr_monitoring w || set_period_ok env) /\
    current_hr (g_app_state w') = current_hr (g_app_state w) /\
    texts w' = texts w /\
    (In (ECall (WindowStackPush true)) es <-> s_main_window w = true) /\
    (In (ECall (HealthServiceSetHeartRateSamplePeriod 1)) es
     <-> s_hr_monitoring w = false).
Proof.
  destruct (appmsg_handle_command_total env CMD_START w) as [w' H].
  exists w'.
  assert (exists es,
    trace w' = trace w ++ es /\
    is_active (g_app_state w')
      = (is_active (g_app_state w) || s_main_window w) /\
    s_hr_monitoring w' = (s_hr_monitoring w || set_period_ok env) /\
    current_hr (g_app_state w') = current_hr (g_app_state w) /\
    texts w' = texts w /\
    (In (ECall (WindowStackPush true)) es <-> s_main_window w = true) /\
    (In (ECall (HealthServiceSetHeartRateSamplePeriod 1)) es
     <-> s_hr_monitoring w = false)) as [es Hes];
    [|exists es; split; [exact H | exact Hes]].
  clear -H. by_cases w env; added_effects; finish.
Qed.

(** X2: CMD_STOP, in any world the event loop reaches, leaves the session
    inactive and the monitor stopped; [current_hr] is cleared only when
    the monitor was sampling, and is otherwise left as it is; the view
    is removed exactly when the window exists, and all windows are
    popped last in every case. *)
Theorem stop_command_always_idle env w :
  reachable w ->
  exists w' es,
    appmsg_handle_command env CMD_STOP w = Some (tt, w') /\
    trace w' = trace w ++ es /\
    is_active (g_app_state w') = false /\
    s_hr_monitoring w' = false /\
    current_hr (g_app_state w')
      = (if s_hr_monitoring w then 0%Z else current_hr (g_app_state w)) /\
    texts w' = texts w /\
    (In (ECall (WindowStackRemove true)) es <-> s_main_window w = true) /\
    last es = Some (ECall (WindowStackPopAll false)).
Proof.
  intros Hr. destruct (reachable_session_ok w Hr) as (_ & Hwin & _).
  destruct (appmsg_handle_command_total env CMD_STOP w) as [w' H].
  exists w'.
  assert (exists es,
    trace w' = trace w ++ es /\
    is_active (g_app_state w') = false /\
    s_hr_monitoring w' = false /\
    current_hr (g_app_state w')
      = (if s_hr_monitoring w then 0%Z else current_hr (g_app_state w)) /\
    texts w' = texts w /\
    (In (ECall (WindowStackRemove true)) es <-> s_main_window w = true) /\
    last es = Some (ECall (WindowStackPopAll false))) as [es Hes];
    [|exists es; split; [exact H | exact Hes]].
  clear Hr. by_cases w env; added_effects; finish.
Qed.

Lemma stop_command_always_idle_witness :
  reachable w_boot /\
  exists w',
    appmsg_handle_command env_period_fails CMD_STOP w_boot = Some (tt, w') /\
    is_active (g_app_state w') = false /\
    s_hr_monitoring w' = false.
Proof.
  split; [exact reachable_w_boot|].
  destruct (stop_command_always_idle env_period_fails w_boot reachable_w_boot)
    as (w' & es & H & _ & Ha & Hm & _).
  exists w'. auto.
Defined.

(** ** Sending *)

(** X3: [appmsg_send_hr] puts one dictionary with the pair (KEY_HR, bpm)
    into the outbox when the outbox is free and begin, write and send
    all succeed, and reports no error then; in every other case it
    leaves the outbox as it is and reports exactly one error.  It calls
    send only after a successful write, and never changes the session
    state or the monitor's flag. *)
Theorem send_hr_outcomes env hr_bpm w :
  exists w' es,
    appmsg_send_hr env hr_bpm w = Some (tt, w') /\
    trace w' = trace w ++ es /\
    g_app_state w' = g_app_state w /\
    s_hr_monitoring w' = s_hr_monitoring w /\
    (if send_accepted env w
     then outbox w' = [[(KEY_HR, hr_bpm)]] /\ errors es = 0
     else outbox w' = outbox w /\ errors es = 1) /\
    (In (ECall AppMessageOutboxSend) es ->
     In (ECall (DictWriteUint16 KEY_HR hr_bpm)) es /\
     write_result env = DICT_OK).
Proof.
  destruct (appmsg_send_hr env hr_bpm w) as [[[] w']|] eqn:H; cycle 1.
  { exfalso. by_cases w env. }
  exists w'.
  assert (exists es,
    trace w' = trace w ++ es /\
    g_app_state w' = g_app_state w /\
    s_hr_monitoring w' = s_hr_monitoring w /\
    (if send_accepted env w
     then outbox w' = [[(KEY_HR, hr_bpm)]] /\ errors es = 0
     else outbox w' = outbox w /\ errors es = 1) /\
    (In (ECall AppMessageOutboxSend) es ->
     In (ECall (DictWriteUint16 KEY_HR hr_bpm)) es /\
     write_result env = DICT_OK)) as [es Hes];
    [|exists es; split; [reflexivity | exact Hes]].
  unfold send_accepted. by_cases w env; added_effects; finish.
Qed.

(** X4: a valid sample is stored and reported as "HR: n BPM" whether
    its send is accepted or not: when the send fails, at begin, write or
    send, [current_hr] keeps the new value, the outbox is as before and
    one error is reported; [is_active], the monitor's flag and the texts
    are never touched. *)
Theorem sample_stored_whatever_the_send env v w :
  peek_value env = Some v ->
  exists w' es,
    hr_event_handler env HealthEventHeartRateUpdate w = Some (tt, w') /\
    trace w' = trace w ++ es /\
    current_hr (g_app_state w') = to_uint16 v /\
    is_active (g_app_state w') = is_active (g_app_state w) /\
    s_hr_monitoring w' = s_hr_monitoring w /\
    texts w' = texts w /\
    (if send_accepted env w
     then outbox w' = [[(KEY_HR, to_uint16 v)]] /\ errors es = 0
     else outbox w' = outbox w /\ errors es = 1) /\
    last es
      = Some (ELog APP_LOG_LEVEL_INFO "HR: %d BPM" (ArgInt (to_uint16 v))).
Proof.
  intros Hv.
  destruct (hr_event_handler_total env HealthEventHeartRateUpdate w)
    as [w' H].
  exists w'.
  assert (exists es,
    trace w' = trace w ++ es /\
    current_hr (g_app_state w') = to_uint16 v /\
    is_active (g_app_state w') = is_active (g_app_state w) /\
    s_hr_monitoring w' = s_hr_monitoring w /\
    texts w' = texts w /\
    (if send_accepted env w
     then outbox w' = [[(KEY_HR, to_uint16 v)]] /\ errors es = 0
     else outbox w' = outbox w /\ errors es = 1) /\
    last es
      = Some (ELog APP_LOG_LEVEL_INFO "HR: %d BPM" (ArgInt (to_uint16 v))))
    as [es Hes];
    [|exists es; split; [exact H | exact Hes]].
  unfold send_accepted. by_cases w env; added_effects; finish.
Qed.

Lemma sample_stored_whatever_the_send_witness :
  peek_value (env_ok (Some 150%Z)) = Some 150%Z /\
  send_accepted (env_ok (Some 150%Z)) w_sent = false /\
  exists w' es,
    hr_event_handler (env_ok (Some 150%Z)) HealthEventHeartRateUpdate w_sent
      = Some (tt, w') /\
    current_hr (g_app_state w') = 150%Z /\
    outbox w' = outbox w_sent /\
    errors es = 1.
Proof.
  split; [reflexivity|]. split; [vm_compute; reflexivity|].
  destruct (sample_stored_whatever_the_send (env_ok (Some 150%Z)) 150 w_sent)
    as (w' & es & H & _ & Hhr & _ & _ & _ & Hs & _); [reflexivity|].
  exists w', es. split; [exact H|]. split; [exact Hhr|].
  replace (send_accepted (env_ok (Some 150%Z)) w_sent) with false in Hs
    by (vm_compute; reflexivity).
  exact Hs.
Defined.

(** ** Invariants of the event loop, in general *)

Lemma reachable_inv (I : World -> Prop) :
  (forall env w, init env initial_world = Some (tt, w) -> I w) ->
  (forall env e w w',
     session_ok w -> I w -> enabled e w = true ->
     handle env e w = Some (tt, w') -> I w') ->
  forall w, reachable w -> I w.
Proof.
  intros Hinit Hstep w Hr.
  induction Hr as [env w H | env e w w' Hr IH He H]; [by eapply Hinit|].
  eapply Hstep; eauto using reachable_session_ok.
Qed.

Lemma run_inv (I : World -> Prop) :
  (forall env e w w',
     session_ok w -> I w -> enabled e w = true ->
     handle env e w = Some (tt, w') -> I w') ->
  forall es w0 w, session_ok w0 -> I w0 -> run es w0 = Some w -> I w.
Proof.
  intros Hstep es.
  induction es as [|[env e] es IH]; intros w0 w Hok HI H; cbn in H.
  - by simplify_eq.
  - destruct (enabled e w0) eqn:He; [|done].
    destruct (handle env e w0) as [[[] w1]|] eqn:Hh; [|done].
    apply (IH w1); [by eapply handle_ok | by eapply Hstep | exact H].
Qed.

(** What the texts of a message change: the two text fields and the
    trace, by reports and requests to redraw. *)
Lemma after_texts_shape iterator w :
  exists p t es,
    after_texts iterator w
      = add_trace es
          (set_g_app_state (fun st => set_time_text t (set_pace_text p st)) w)
    /\ Forall text_effect es
    /\ (p = pace_text (g_app_state w) \/ exists s, p = stored_text s)
    /\ (t = time_text (g_app_state w) \/ exists s, t = stored_text s).
Proof.
  unfold after_texts, pace_updated, time_updated.
  destruct (accepted_cstring iterator KEY_PACE) as [sp|],
    (accepted_cstring iterator KEY_TIME) as [st|].
  - exists (stored_text sp), (stored_text st),
      ([ELog APP_LOG_LEVEL_INFO "AppMessage received" NoArg;
        ELog APP_LOG_LEVEL_DEBUG "Pace update: %s" (ArgStr (cstring sp))]
       ++ mark_dirty w ++
       ELog APP_LOG_LEVEL_DEBUG "Time update: %s" (ArgStr (cstring st))
       :: mark_dirty w).
    split; [apply World_ext; cbn; try reflexivity;
            rewrite <- ?app_assoc; reflexivity|].
    split; [|split; eauto]. unfold mark_dirty.
    destruct (s_canvas_layer w); repeat constructor.
  - exists (stored_text sp), (time_text (g_app_state w)),
      ([ELog APP_LOG_LEVEL_INFO "AppMessage received" NoArg;
        ELog APP_LOG_LEVEL_DEBUG "Pace update: %s" (ArgStr (cstring sp))]
       ++ mark_dirty w).
    split; [apply World_ext; cbn; try reflexivity;
            rewrite <- ?app_assoc; reflexivity|].
    split; [|split; eauto]. unfold mark_dirty.
    destruct (s_canvas_layer w); repeat constructor.
  - exists (pace_text (g_app_state w)), (stored_text st),
      ([ELog APP_LOG_LEVEL_INFO "AppMessage received" NoArg;
        ELog APP_LOG_LEVEL_DEBUG "Time update: %s" (ArgStr (cstring st))]
       ++ mark_dirty w).
    split; [apply World_ext; cbn; try reflexivity;
            rewrite <- ?app_assoc; reflexivity|].
    split; [|split; eauto]. unfold mark_dirty.
    destruct (s_canvas_layer w); repeat constructor.
  - exists (pace_text (g_app_state w)), (time_text (g_app_state w)),
      [ELog APP_LOG_LEVEL_INFO "AppMessage received" NoArg].
    split; [apply World_ext; cbn; try reflexivity;
            by destruct (g_app_state w)|].
    split; [repeat constructor | split; eauto].
Qed.

Lemma inbox_received_callback_inv (I : World -> Prop) env iterator :
  (forall w, I w -> I (after_texts iterator w)) ->
  (forall cmd, respects (preserving I) (appmsg_handle_command env cmd)) ->
  forall w w',
    text_ok w -> I w ->
    inbox_received_callback env iterator w = Some (tt, w') -> I w'.
Proof.
  intros Htexts Hcmd w w' Hok HI H.
  rewrite inbox_received_callback_eq in H by exact Hok.
  apply Htexts in HI.
  destruct (accepted_uint8 iterator KEY_CMD).
  - by eapply Hcmd.
  - by simplify_eq.
Qed.

(** Statements about every effect of a trace, after a handler ran. *)
Ltac forall_effects :=
  cbn in *; rewrite ?Forall_app, ?Forall_cons, ?Forall_nil; cbn;
  intuition (try congruence).

(** ** What each event can change *)

Lemma appmsg_handle_command_window env cmd :
  respects (keeps s_main_window) (appmsg_handle_command env cmd).
Proof. intros w [] w' H. unfold keeps. by_cases w env; reflexivity. Qed.

Lemma after_texts_window iterator w :
  s_main_window (after_texts iterator w) = s_main_window w /\
  s_canvas_layer (after_texts iterator w) = s_canvas_layer w /\
  health_subscribed (after_texts iterator w) = health_subscribed w.
Proof.
  destruct (after_texts_shape iterator w) as (p & t & es & -> & _). done.
Qed.

Lemma scalars_inv a b :
  scalars a = scalars b ->
  is_active (g_app_state a) = is_active (g_app_state b) /\
  current_hr (g_app_state a) = current_hr (g_app_state b) /\
  s_hr_monitoring a = s_hr_monitoring b.
Proof. unfold scalars. intros [= -> -> ->]. done. Qed.

(** X5: every handler of the event loop returns on text fields of the
    declared size, and leaves [s_main_window] as it is; only a message
    with an accepted command changes [is_active] or [s_hr_monitoring];
    only a message changes the texts; only a message or a health event
    changes [current_hr]; and [s_canvas_layer] changes only by a command
    or the load handler. *)
Theorem handler_frame env e w :
  text_ok w ->
  exists w',
    handle env e w = Some (tt, w') /\
    s_main_window w' = s_main_window w /\
    (is_command e = false ->
     is_active (g_app_state w') = is_active (g_app_state w) /\
     s_hr_monitoring w' = s_hr_monitoring w) /\
    (is_message e = false -> texts w' = texts w) /\
    (is_message e = false -> is_health_event e = false ->
     current_hr (g_app_state w') = current_hr (g_app_state w)) /\
    (is_command e = false -> e <> WindowLoad ->
     s_canvas_layer w' = s_canvas_layer w).
Proof.
  intros Hok. destruct (handle_total env e w Hok) as [w' H].
  exists w'. split; [exact H|].
  destruct e; cbn [handle is_command is_message is_health_event] in *.
  - rewrite inbox_received_callback_eq in H by exact Hok.
    destruct (scalars_after_texts iterator w) as (Hs & _ & _).
    destruct (after_texts_window iterator w) as (Hw & Hc & _).
    destruct (accepted_uint8 iterator KEY_CMD) as [cmd|].
    + split; [|done]. rewrite <- Hw.
      by eapply appmsg_handle_command_window.
    + apply scalars_inv in Hs as (Ha & _ & Hm). by simplify_eq.
  - by_cases w env; finish.
  - by_cases w env; finish.
  - by_cases w env; finish.
  - by_cases w env; finish.
  - by_cases w env; finish.
  - by_cases w env; finish.
Qed.

Lemma handler_frame_witness :
  text_ok w_sent /\
  exists w',
    handle (env_ok None) (OutboxFailed APP_MSG_SEND_TIMEOUT) w_sent
      = Some (tt, w') /\
    texts w' = texts w_sent /\
    current_hr (g_app_state w') = current_hr (g_app_state w_sent) /\
    is_active (g_app_state w') = is_active (g_app_state w_sent) /\
    s_hr_monitoring w' = s_hr_monitoring w_sent.
Proof.
  assert (text_ok w_sent) as Hok by (split; vm_compute; reflexivity).
  split; [exact Hok|].
  destruct (handler_frame (env_ok None) (OutboxFailed APP_MSG_SEND_TIMEOUT)
              w_sent Hok) as (w' & H & _ & Hcmd & Htexts & Hhr & _).
  exists w'. split; [exact H|].
  destruct (Hcmd eq_refl) as [Ha Hm].
  split; [exact (Htexts eq_refl)|].
  split; [exact (Hhr eq_refl eq_refl)|].
  split; [exact Ha | exact Hm].
Defined.

(** ** Invariants of the texts and of the values sent *)

Lemma handle_texts env e w w' :
  is_message e = false -> handle env e w = Some (tt, w') ->
  texts w' = texts w.
Proof.
  intros He H. destruct e; try discriminate He; by_cases w env; reflexivity.
Qed.

Lemma stored_text_terminated s : terminated (stored_text s).
Proof.
  unfold terminated, stored_text, strlen.
  rewrite lookup_app_r by (rewrite length_take; unfold sizeof_text; lia).
  apply lookup_replicate_2.
  rewrite length_take. unfold sizeof_text. lia.
Qed.

Lemma terminated_strlen buf :
  terminated buf -> strlen buf <= sizeof_text - 1.
Proof.
  unfold terminated, strlen. generalize (sizeof_text - 1). intros i.
  revert buf. induction i as [|i IH]; intros [|c rest] H; try done.
  - injection H as ->. cbn. lia.
  - cbn in *. destruct (is_nul c); cbn; [lia|]. apply IH in H. lia.
Qed.

Lemma terminated_read_cstring buf :
  terminated buf -> read_cstring buf = Some (cstring buf).
Proof.
  unfold terminated, read_cstring. intros H.
  assert (existsb is_nul buf = true) as ->; [|done].
  apply existsb_exists. exists x00. split; [|done].
  apply list_elem_of_In. by eapply list_elem_of_lookup_2.
Qed.

Lemma init_app_state env w :
  init env initial_world = Some (tt, w) -> g_app_state w = initial_app_state.
Proof.
  intros H. destruct env. unfold_handlers. unfold_prog. run_cases; reflexivity.
Qed.

Lemma reachable_terminated w :
  reachable w ->
  terminated (pace_text (g_app_state w)) /\
  terminated (time_text (g_app_state w)).
Proof.
  revert w. apply reachable_inv.
  - intros env w H. rewrite (init_app_state env w H).
    split; vm_compute; reflexivity.
  - intros env e w w' Hok HI He H.
    destruct (is_message e) eqn:Hm.
    + destruct e; try discriminate Hm. cbn [handle] in H.
      pose proof (proj1 Hok) as Htok. clear Hok He Hm.
      revert w w' Htok HI H.
      apply (inbox_received_callback_inv
               (fun w => terminated (pace_text (g_app_state w)) /\
                         terminated (time_text (g_app_state w)))).
      * intros w [Hp Ht].
        destruct (after_texts_shape iterator w)
          as (p & t & es & -> & _ & [->|[s ->]] & [->|[s' ->]]); cbn;
          auto using stored_text_terminated.
      * intros cmd w [] w' H [Hp Ht].
        apply appmsg_handle_command_texts in H.
        unfold keeps, texts in H. injection H as -> ->. done.
    + apply (handle_texts env e w w' Hm) in H.
      unfold texts in H. injection H as -> ->. done.
Qed.

(** X6: in every world the event loop reaches, each text field has its
    16 bytes and ends in NUL, so the string it holds has at most 15
    characters and reading it stays inside the array. *)
Theorem texts_always_terminated w :
  reachable w ->
  length (pace_text (g_app_state w)) = sizeof_text /\
  length (time_text (g_app_state w)) = sizeof_text /\
  pace_text (g_app_state w) !! 15 = Some x00 /\
  time_text (g_app_state w) !! 15 = Some x00 /\
  strlen (pace_text (g_app_state w)) <= 15 /\
  strlen (time_text (g_app_state w)) <= 15 /\
  read_cstring (pace_text (g_app_state w))
    = Some (cstring (pace_text (g_app_state w))) /\
  read_cstring (time_text (g_app_state w))
    = Some (cstring (time_text (g_app_state w))).
Proof.
  intros Hr.
  destruct (reachable_session_ok w Hr) as ([Hlp Hlt] & _).
  destruct (reachable_terminated w Hr) as [Hp Ht].
  repeat split; try assumption.
  - by apply terminated_strlen in Hp.
  - by apply terminated_strlen in Ht.
  - by apply terminated_read_cstring.
  - by apply terminated_read_cstring.
Qed.

Lemma texts_always_terminated_witness :
  reachable w_stopped /\
  strlen (pace_text (g_app_state w_stopped)) <= 15 /\
  read_cstring (time_text (g_app_state w_stopped))
    = Some (cstring (time_text (g_app_state w_stopped))).
Proof.
  assert (reachable w_stopped) as Hr.
  { apply (run_reachable session_events w_boot w_stopped reachable_w_boot).
    vm_compute. reflexivity. }
  split; [exact Hr|].
  destruct (texts_always_terminated w_stopped Hr)
    as (_ & _ & _ & _ & Hp & _ & _ & Ht).
  split; [exact Hp | exact Ht].
Defined.

Lemma to_uint16_range v : is_uint16 (to_uint16 v).
Proof. unfold is_uint16, to_uint16. apply Z.mod_pos_bound. lia. Qed.

Lemma text_effect_hr_write_only e : text_effect e -> hr_write_only e.
Proof. by destruct e as [| [] | | |]. Qed.

Lemma reachable_uint16 w :
  reachable w ->
  is_uint16 (current_hr (g_app_state w)) /\
  Forall hr_write_only (trace w).
Proof.
  revert w. apply reachable_inv.
  - intros env w H. split.
    + rewrite (init_app_state env w H). unfold is_uint16. cbn. lia.
    + destruct env. unfold_handlers. unfold_prog.
      run_cases; repeat constructor.
  - intros env e w w' Hok HI He H.
    destruct (is_message e) eqn:Hm.
    + destruct e; try discriminate Hm. cbn [handle] in H.
      pose proof (proj1 Hok) as Htok. clear Hok He Hm.
      revert w w' Htok HI H.
      apply (inbox_received_callback_inv
               (fun w => is_uint16 (current_hr (g_app_state w)) /\
                         Forall hr_write_only (trace w))).
      * intros w [Hhr Htr].
        destruct (after_texts_shape iterator w)
          as (p & t & es & -> & Hes & _). cbn. split; [exact Hhr|].
        apply Forall_app. split; [exact Htr|].
        eapply Forall_impl; [exact Hes|]. apply text_effect_hr_write_only.
      * intros cmd w [] w' H. unfold preserving, is_uint16.
        by_cases w env; forall_effects; lia.
    + clear Hok He. revert HI. unfold is_uint16.
      destruct e; try discriminate Hm; by_cases w env; forall_effects;
        try lia; try apply to_uint16_range.
Qed.

(** X7: in every world the event loop reaches, [current_hr] is a value
    of [uint16_t], and every write into an outbound dictionary so far
    wrote the key KEY_HR with such a value: the watch sends heart rates
    and nothing else. *)
Theorem only_heart_rates_are_sent w :
  reachable w ->
  is_uint16 (current_hr (g_app_state w)) /\
  Forall hr_write_only (trace w).
Proof. apply reachable_uint16. Qed.

Lemma only_heart_rates_are_sent_witness :
  reachable w_sent /\
  is_uint16 (current_hr (g_app_state w_sent)) /\
  In (ECall (DictWriteUint16 KEY_HR 142)) (trace w_sent).
Proof.
  split; [exact reachable_w_sent|].
  split; [exact (proj1 (only_heart_rates_are_sent w_sent reachable_w_sent))|].
  vm_compute. tauto.
Defined.

(** ** When a part of [init] fails *)

(** X8: [init] returns whatever the SDK answers and leaves the session
    state at its defaults; the window, the subscription and the channel
    are set up independently, each with its own outcome; a failed
    subscription and a failed open are each reported as one error,
    while [ui_init] reports "UI initialized" even when [window_create]
    returned [NULL]. *)
Theorem init_outcomes env :
  exists w,
    init env initial_world = Some (tt, w) /\
    g_app_state w = initial_app_state /\
    s_hr_monitoring w = false /\
    s_canvas_layer w = false /\
    outbox w = [] /\
    s_main_window w = window_create_ok env /\
    health_subscribed w = subscribe_ok env /\
    (appmsg_opened w = true <-> open_result env = APP_MSG_OK) /\
    errors (trace w)
      = (if subscribe_ok env then 0 else 1)
        + (match open_result env with APP_MSG_OK => 0 | _ => 1 end) /\
    In (ELog APP_LOG_LEVEL_INFO "UI initialized" NoArg) (trace w) /\
    last (trace w)
      = Some (ELog APP_LOG_LEVEL_INFO "PebbleRun initialized" NoArg).
Proof.
  destruct (init_total env) as [w H]. exists w. split; [exact H|].
  destruct env. unfold_handlers. unfold_prog. run_cases; finish.
Qed.

Lemma handle_command_services env cmd :
  respects (keeps (fun w => (health_subscribed w, outbox w)))
    (appmsg_handle_command env cmd).
Proof. intros w [] w' H. unfold keeps. by_cases w env; reflexivity. Qed.

Lemma text_effect_no_send_call e : text_effect e -> no_send_call e.
Proof. by destruct e as [| [] | | |]. Qed.

Lemma text_effect_no_window_call e : text_effect e -> no_window_call e.
Proof. by destruct e as [| [] | | |]. Qed.

Lemma no_subscription_step env e w w' :
  session_ok w ->
  health_subscribed w = false /\
  current_hr (g_app_state w) = 0%Z /\
  outbox w = [] /\
  Forall no_send_call (trace w) ->
  enabled e w = true ->
  handle env e w = Some (tt, w') ->
  health_subscribed w' = false /\
  current_hr (g_app_state w') = 0%Z /\
  outbox w' = [] /\
  Forall no_send_call (trace w').
Proof.
  intros Hok HI He H.
  destruct (is_message e) eqn:Hm.
  - destruct e; try discriminate Hm. cbn [handle] in H.
    pose proof (proj1 Hok) as Htok. clear Hok He Hm.
    revert w w' Htok HI H.
    apply (inbox_received_callback_inv
             (fun w => health_subscribed w = false /\
                       current_hr (g_app_state w) = 0%Z /\
                       outbox w = [] /\
                       Forall no_send_call (trace w))).
    + intros w (Hs & Hhr & Ho & Htr).
      destruct (after_texts_shape iterator w)
        as (p & t & es & -> & Hes & _). cbn. repeat split; try assumption.
      apply Forall_app. split; [exact Htr|].
      eapply Forall_impl; [exact Hes|]. apply text_effect_no_send_call.
    + intros cmd w [] w' H. unfold preserving.
      by_cases w env; forall_effects.
  - clear Hok. revert HI He.
    destruct e; try discriminate Hm; by_cases w env; forall_effects.
Qed.

(** X9: when the subscription to the health service fails in [init],
    then in every world the event loop reaches [current_hr] is 0,
    nothing is in the outbox, and the program never peeked at the
    sensor nor began, wrote or sent a message. *)
Theorem no_subscription_no_heart_rate env0 w0 es w :
  init env0 initial_world = Some (tt, w0) ->
  subscribe_ok env0 = false ->
  run es w0 = Some w ->
  current_hr (g_app_state w) = 0%Z /\
  outbox w = [] /\
  Forall no_send_call (trace w).
Proof.
  intros Hinit Hsub Hrun.
  destruct (init_spec env0 w0 Hinit) as (Hok & _ & Ho).
  assert (health_subscribed w0 = false /\
          current_hr (g_app_state w0) = 0%Z /\
          outbox w0 = [] /\
          Forall no_send_call (trace w0)) as H0.
  { split; [|split; [by rewrite (init_app_state env0 w0 Hinit)|split; [exact Ho|]]].
    - clear Hok Ho Hrun. destruct env0. cbn in Hsub. subst.
      unfold_handlers. unfold_prog. run_cases; reflexivity.
    - clear Hok Ho Hrun Hsub. destruct env0.
      unfold_handlers. unfold_prog. run_cases; repeat constructor. }
  apply (run_inv _ no_subscription_step es w0 w Hok H0 Hrun).
Qed.

Lemma no_subscription_no_heart_rate_witness :
  init env_no_health initial_world = Some (tt, boot env_no_health) /\
  subscribe_ok env_no_health = false /\
  run [(env_ok None, InboxReceived (cmd_message x01));
       (env_ok None, InboxReceived (cmd_message x02))] (boot env_no_health)
    <> None /\
  forall w,
    run [(env_ok None, InboxReceived (cmd_message x01));
         (env_ok None, InboxReceived (cmd_message x02))] (boot env_no_health)
      = Some w ->
    current_hr (g_app_state w) = 0%Z /\ outbox w = [].
Proof.
  split; [vm_compute; reflexivity|].
  split; [reflexivity|].
  split; [vm_compute; discriminate|].
  intros w Hw.
  destruct (no_subscription_no_heart_rate env_no_health (boot env_no_health)
    [(env_ok None, InboxReceived (cmd_message x01));
     (env_ok None, InboxReceived (cmd_message x02))] w)
    as (Hhr & Ho & _);
    [vm_compute; reflexivity | reflexivity | exact Hw |].
  split; [exact Hhr | exact Ho].
Defined.

Lemma no_window_step env e w w' :
  session_ok w ->
  s_main_window w = false /\
  is_active (g_app_state w) = false /\
  Forall no_window_call (trace w) ->
  enabled e w = true ->
  handle env e w = Some (tt, w') ->
  s_main_window w' = false /\
  is_active (g_app_state w') = false /\
  Forall no_window_call (trace w').
Proof.
  intros Hok HI He H.
  destruct (is_message e) eqn:Hm.
  - destruct e; try discriminate Hm. cbn [handle] in H.
    pose proof (proj1 Hok) as Htok. clear Hok He Hm.
    revert w w' Htok HI H.
    apply (inbox_received_callback_inv
             (fun w => s_main_window w = false /\
                       is_active (g_app_state w) = false /\
                       Forall no_window_call (trace w))).
    + intros w (Hs & Ha & Htr).
      destruct (after_texts_shape iterator w)
        as (p & t & es & -> & Hes & _). cbn. repeat split; try assumption.
      apply Forall_app. split; [exact Htr|].
      eapply Forall_impl; [exact Hes|]. apply text_effect_no_window_call.
    + intros cmd w [] w' H. unfold preserving.
      by_cases w env; forall_effects.
  - clear Hok. revert HI He.
    destruct e; try discriminate Hm; by_cases w env; forall_effects.
Qed.

(** X10: when [window_create] returns [NULL] in [init], the session is
    never active afterwards, whatever commands arrive, and the program
    never pushes, removes or destroys a window. *)
Theorem no_window_no_session env0 w0 es w :
  init env0 initial_world = Some (tt, w0) ->
  window_create_ok env0 = false ->
  run es w0 = Some w ->
  is_active (g_app_state w) = false /\
  s_main_window w = false /\
  Forall no_window_call (trace w).
Proof.
  intros Hinit Hwin Hrun.
  destruct (init_spec env0 w0 Hinit) as (Hok & _ & _).
  assert (s_main_window w0 = false /\
          is_active (g_app_state w0) = false /\
          Forall no_window_call (trace w0)) as H0.
  { split; [|split; [by rewrite (init_app_state env0 w0 Hinit)|]].
    - clear Hok Hrun. destruct env0. cbn in Hwin. subst.
      unfold_handlers. unfold_prog. run_cases; reflexivity.
    - clear Hok Hrun Hwin. destruct env0.
      unfold_handlers. unfold_prog. run_cases; repeat constructor. }
  destruct (run_inv _ no_window_step es w0 w Hok H0 Hrun) as (? & ? & ?).
  done.
Qed.

Lemma no_window_no_session_witness :
  init env_no_window initial_world = Some (tt, boot env_no_window) /\
  window_create_ok env_no_window = false /\
  run [(env_ok None, InboxReceived (cmd_message x01))] (boot env_no_window)
    <> None /\
  forall w,
    run [(env_ok None, InboxReceived (cmd_message x01))] (boot env_no_window)
      = Some w ->
    is_active (g_app_state w) = false /\ s_hr_monitoring w = true.
Proof.
  split; [vm_compute; reflexivity|].
  split; [reflexivity|].
  split; [vm_compute; discriminate|].
  intros w Hw.
  destruct (no_window_no_session env_no_window (boot env_no_window)
    [(env_ok None, InboxReceived (cmd_message x01))] w)
    as (Ha & _ & _);
    [vm_compute; reflexivity | reflexivity | exact Hw |].
  split; [exact Ha|].
  vm_compute in Hw. by injection Hw as <-.
Defined.

(** ** Teardown *)

(** X11: [deinit] tears down in the order channel, sensor, window.  It
    stops a monitor that is sampling, with the request for the default
    sample period and [current_hr] cleared, and skips the stop otherwise,
    so that no warning is reported; it destroys the window exactly when
    it exists; it leaves [is_active] and the texts as they are. *)
Theorem deinit_effects env w :
  exists w',
    deinit env w = Some (tt, w') /\
    trace w' =
      trace w ++
      [ECall AppMessageDeregisterCallbacks;
       ELog APP_LOG_LEVEL_INFO "AppMessage deinitialized" NoArg] ++
      (if s_hr_monitoring w then stop_effects w else []) ++
      [ECall HealthServiceEventsUnsubscribe;
       ELog APP_LOG_LEVEL_INFO "HR monitoring deinitialized" NoArg] ++
      (if s_main_window w then [ECall WindowDestroy] else []) ++
      [ELog APP_LOG_LEVEL_INFO "PebbleRun deinitialized" NoArg] /\
    s_hr_monitoring w' = false /\
    current_hr (g_app_state w')
      = (if s_hr_monitoring w then 0%Z else current_hr (g_app_state w)) /\
    is_active (g_app_state w') = is_active (g_app_state w) /\
    texts w' = texts w /\
    health_subscribed w' = false /\
    appmsg_opened w' = false.
Proof.
  destruct (deinit env w) as [[[] w']|] eqn:H; cycle 1.
  { exfalso. unfold_teardown. by_cases w env. }
  exists w'. split; [reflexivity|].
  unfold stop_effects, mark_dirty. unfold_teardown.
  by_cases w env; (split; [rewrite <- ?app_assoc; reflexivity|]); finish.
Qed.

(** ** The fields of one message *)

Lemma command_after_texts env cmd iterator w w1 wc :
  appmsg_handle_command env cmd (after_texts iterator w) = Some (tt, w1) ->
  appmsg_handle_command env cmd w = Some (tt, wc) ->
  scalars w1 = scalars wc.
Proof.
  destruct (after_texts_shape iterator w) as (p & t & es & -> & _).
  intros H1 H2. unfold scalars. by_cases w env; reflexivity.
Qed.

Lemma after_texts_stored iterator w :
  (forall s, accepted_cstring iterator KEY_PACE = Some s ->
             pace_text (g_app_state (after_texts iterator w)) = stored_text s)
  /\
  (forall s, accepted_cstring iterator KEY_TIME = Some s ->
             time_text (g_app_state (after_texts iterator w)) = stored_text s).
Proof.
  unfold after_texts.
  destruct (accepted_cstring iterator KEY_PACE),
    (accepted_cstring iterator KEY_TIME); split; intros s Hs;
    by simplify_eq.
Qed.

Lemma after_texts_trace iterator w :
  trace (after_texts iterator w) =
    trace w ++
    ELog APP_LOG_LEVEL_INFO "AppMessage received" NoArg
    :: pace_effects iterator w ++ time_effects iterator w.
Proof.
  unfold after_texts, pace_effects, time_effects, pace_updated, time_updated,
    mark_dirty.
  destruct (accepted_cstring iterator KEY_PACE),
    (accepted_cstring iterator KEY_TIME), (s_canvas_layer w) eqn:Hc;
    cbn; rewrite ?Hc; cbn; rewrite <- ?app_assoc; reflexivity.
Qed.

(** The command of a message has the effects it has without the texts. *)
Lemma command_effects_after_texts env cmd iterator w w1 wc :
  appmsg_handle_command env cmd (after_texts iterator w) = Some (tt, w1) ->
  appmsg_handle_command env cmd w = Some (tt, wc) ->
  exists es,
    trace w1 = trace (after_texts iterator w) ++ es /\
    trace wc = trace w ++ es /\
    hd_error es
      = Some (ELog APP_LOG_LEVEL_INFO "Received command: %d" (ArgInt cmd)).
Proof.
  destruct (after_texts_shape iterator w) as (p & t & es0 & -> & _).
  intros H1 H2.
  by_cases w env; eexists;
    (split; [cbn; rewrite <- ?app_assoc; reflexivity|]);
    (split; [cbn; rewrite <- ?app_assoc; reflexivity|]); reflexivity.
Qed.

(** X12: the fields of one message act in the order PACE, TIME, CMD and
    independently.  The trace after the message is the report of the
    reception, then the effects of the accepted pace, then those of the
    accepted time, then those of the accepted command, which begin with
    the report of the command and are the effects the command has on
    the world without the texts.  An accepted pace and an accepted time
    are stored whatever the command is, also a command that stops the
    session or is unknown, and the command leaves [is_active],
    [current_hr] and the monitor's flag as it would without the texts. *)
Theorem message_fields_independent env iterator w :
  text_ok w ->
  exists w' es_cmd,
    inbox_received_callback env iterator w = Some (tt, w') /\
    trace w' =
      trace w ++
      ELog APP_LOG_LEVEL_INFO "AppMessage received" NoArg
      :: pace_effects iterator w ++ time_effects iterator w ++ es_cmd /\
    (forall s, accepted_cstring iterator KEY_PACE = Some s ->
               pace_text (g_app_state w') = stored_text s) /\
    (forall s, accepted_cstring iterator KEY_TIME = Some s ->
               time_text (g_app_state w') = stored_text s) /\
    match accepted_uint8 iterator KEY_CMD with
    | Some cmd =>
        exists wc,
          appmsg_handle_command env cmd w = Some (tt, wc) /\
          scalars w' = scalars wc /\
          trace wc = trace w ++ es_cmd /\
          hd_error es_cmd
            = Some (ELog APP_LOG_LEVEL_INFO "Received command: %d"
                      (ArgInt cmd))
    | None => es_cmd = [] /\ scalars w' = scalars w
    end.
Proof.
  intros Hok.
  destruct (inbox_received_callback_total env iterator w Hok) as [w' H].
  exists w'.
  pose proof H as H'.
  rewrite inbox_received_callback_eq in H' by exact Hok.
  destruct (after_texts_stored iterator w) as [Hp Ht].
  assert (texts w' = texts (after_texts iterator w)) as Htexts.
  { destruct (accepted_uint8 iterator KEY_CMD).
    - by eapply appmsg_handle_command_texts.
    - by simplify_eq. }
  unfold texts in Htexts. injection Htexts as Hpace Htime.
  rewrite <- Hpace in Hp. rewrite <- Htime in Ht.
  destruct (accepted_uint8 iterator KEY_CMD) as [cmd|].
  - destruct (appmsg_handle_command_total env cmd w) as [wc Hwc].
    destruct (command_effects_after_texts env cmd iterator w w' wc H' Hwc)
      as (es & Hes1 & Hes2 & Hhd).
    exists es. split; [exact H|]. split.
    { rewrite Hes1, after_texts_trace. rewrite <- !app_assoc. cbn.
      by rewrite <- !app_assoc. }
    split; [exact Hp|]. split; [exact Ht|].
    exists wc. split; [exact Hwc|].
    split; [by eapply command_after_texts|]. split; [exact Hes2 | exact Hhd].
  - simplify_eq. exists []. split; [exact H|]. split.
    { rewrite after_texts_trace. by rewrite app_nil_r. }
    split; [exact Hp|]. split; [exact Ht|].
    split; [reflexivity|]. apply scalars_after_texts.
Qed.

Lemma message_fields_independent_witness :
  text_ok w_active /\
  exists w',
    inbox_received_callback (env_ok None) (full_message x02) w_active
      = Some (tt, w') /\
    cstring (pace_text (g_app_state w'))
      = String.list_byte_of_string "5:30/km" /\
    cstring (time_text (g_app_state w'))
      = String.list_byte_of_string "00:12:34" /\
    scalars w' = (false, 0%Z, false).
Proof.
  assert (text_ok w_active) as Hok by (split; vm_compute; reflexivity).
  split; [exact Hok|].
  destruct (message_fields_independent (env_ok None) (full_message x02)
              w_active Hok) as (w' & es & H & _ & Hp & Ht & Hc).
  exists w'. split; [exact H|].
  rewrite (Hp (String.list_byte_of_string "5:30/km") eq_refl).
  rewrite (Ht (String.list_byte_of_string "00:12:34") eq_refl).
  split; [vm_compute; reflexivity|]. split; [vm_compute; reflexivity|].
  change (accepted_uint8 (full_message x02) KEY_CMD) with (Some CMD_STOP)
    in Hc.
  destruct Hc as (wc & Hwc & -> & _).
  vm_compute in Hwc. by injection Hwc as <-.
Defined.

(** ** Drawing *)

Lemma all_from_spec fuel : forall z f,
  all_from fuel z f = true ->
  forall x, (z <= x < z + Z.of_nat fuel)%Z -> f x = true.
Proof.
  induction fuel as [|k IH]; intros z f H x Hx; [lia|].
  cbn [all_from] in H. apply andb_prop in H as [H0 H1].
  destruct (decide (x = z)) as [->|Hne]; [exact H0|].
  apply (IH (z + 1)%Z f H1). lia.
Qed.

(** A [uint16_t] prints with at most five digits. *)
Lemma format_d_uint16 z : is_uint16 z -> length (format_d z) <= 5.
Proof.
  intros Hz.
  assert (all_from (Z.to_nat 65536) 0
            (fun z => Nat.leb (length (format_d z)) 5) = true) as H
    by (vm_compute; reflexivity).
  apply Nat.leb_le. apply (all_from_spec _ _ _ H z).
  unfold is_uint16 in Hz. lia.
Qed.

Lemma snprintf_fits size s : length s < size -> snprintf size s = s.
Proof. intros H. unfold snprintf. apply take_ge. lia. Qed.

(** X13: in every world the event loop reaches, [canvas_update_proc]
    reads both text fields inside their arrays and draws, in this order,
    the background, the heart rate, the pace and the time, and the green
    dot exactly when the session is active; the heart rate is drawn as
    "-- BPM" when [current_hr] is 0 and otherwise in full, its decimal
    digits and " BPM": the 16-byte buffer never cuts it. *)
Theorem canvas_draws_session bounds w :
  reachable w ->
  canvas_update_proc bounds (g_app_state w) =
    Some
      ([GraphicsContextSetFillColor GColorBlack;
        GraphicsFillRect bounds;
        GraphicsContextSetTextColor GColorRed;
        GraphicsDrawText
          (if (current_hr (g_app_state w) =? 0)%Z
           then String.list_byte_of_string "-- BPM"
           else format_d (current_hr (g_app_state w))
                ++ String.list_byte_of_string " BPM")
          S_FONT_HR (mkGRect 0 20 (size_w bounds) 40);
        GraphicsContextSetTextColor GColorWhite;
        GraphicsDrawText (cstring (pace_text (g_app_state w)))
          S_FONT_DATA (mkGRect 0 70 (size_w bounds) 30);
        GraphicsContextSetTextColor GColorLightGray;
        GraphicsDrawText (cstring (time_text (g_app_state w)))
          S_FONT_DATA (mkGRect 0 110 (size_w bounds) 30)]
       ++ if is_active (g_app_state w)
          then [GraphicsContextSetFillColor GColorGreen;
                GraphicsFillCircle (to_int16 (size_w bounds - 10)) 10 3]
          else []).
Proof.
  intros Hr.
  destruct (reachable_terminated w Hr) as [Hp Ht].
  destruct (reachable_uint16 w Hr) as [Hhr _].
  unfold canvas_update_proc.
  rewrite (terminated_read_cstring _ Hp), (terminated_read_cstring _ Ht).
  cbn [mbind option_bind].
  assert ((if (0 <? current_hr (g_app_state w))%Z
           then snprintf 16 (format_d (current_hr (g_app_state w))
                             ++ String.list_byte_of_string " BPM")
           else snprintf 16 (String.list_byte_of_string "-- BPM"))
          = (if (current_hr (g_app_state w) =? 0)%Z
             then String.list_byte_of_string "-- BPM"
             else format_d (current_hr (g_app_state w))
                  ++ String.list_byte_of_string " BPM")) as ->; [|done].
  unfold is_uint16 in Hhr.
  destruct (Z.eqb_spec (current_hr (g_app_state w)) 0) as [->|Hne];
    [reflexivity|].
  assert ((0 <? current_hr (g_app_state w))%Z = true) as ->
    by (apply Z.ltb_lt; lia).
  apply snprintf_fits. rewrite length_app.
  pose proof (format_d_uint16 _ Hhr). cbn. lia.
Qed.

Lemma canvas_draws_session_witness :
  reachable w_sent /\
  exists ops,
    canvas_update_proc (mkGRect 0 0 144 168) (g_app_state w_sent) = Some ops /\
    In (GraphicsDrawText (String.list_byte_of_string "142 BPM") S_FONT_HR
          (mkGRect 0 20 144 40)) ops /\
    In (GraphicsFillCircle 134 10 3) ops.
Proof.
  split; [exact reachable_w_sent|].
  eexists. split.
  - apply (canvas_draws_session (mkGRect 0 0 144 168) w_sent
             reachable_w_sent).
  - split; vm_compute; tauto.
Defined.

(** X14: [main_window_unload] destroys the canvas layer and leaves
    [s_canvas_layer] as it is: an update of the heart rate that follows
    still asks the destroyed layer to redraw. *)
Theorem update_after_unload hr w :
  s_canvas_layer w = true ->
  bind main_window_unload (fun _ => ui_update_hr hr) w =
    Some (tt, add_trace
      [ECall LayerDestroy; EStoreHr hr; ECall LayerMarkDirty]
      (set_g_app_state (set_current_hr hr) w)).
Proof.
  intros H. open_world w. world_eq.
Qed.

Lemma update_after_unload_witness :
  s_canvas_layer w_active = true /\
  bind main_window_unload (fun _ => ui_update_hr 0) w_active =
    Some (tt, add_trace
      [ECall LayerDestroy; EStoreHr 0; ECall LayerMarkDirty]
      (set_g_app_state (set_current_hr 0) w_active)).
Proof.
  split; [vm_compute; reflexivity|].
  apply (update_after_unload 0 w_active). vm_compute. reflexivity.
Defined.
